(** * The dogoap example page loader (web-src/app.js)

    A shallow embedding of the browser-side loader script and of the part of
    the browser it talks to: the URL fragment, the document, dynamic
    [import()], [fetch], promise chains run by an event loop, [window.alert]
    and the [hashchange] event. *)

From Stdlib Require Import String Ascii.
From stdpp Require Import base list strings.

Local Open Scope string_scope.
Local Open Scope list_scope.

(** ** JavaScript values *)

(** The values the script handles.  A promise carries the state it settles
    to, a function the source text it prints as and what calling it does, a
    module namespace its default export, a response what reading its body
    gives. *)
Inductive value : Type :=
| VUndefined
| VString (s : string)
| VError (name message : string)
| VFunction (source : string) (body : behaviour)
| VModule (default : value)
| VResponse (body : settled)
| VPromise (state : settled)
| VHashChangeEvent (oldURL newURL : string)
with settled : Type :=
| Fulfilled (v : value)
| Rejected (reason : value)
with behaviour : Type :=
| Returns (v : value)
| Throws (e : value).

(** Conversion to a string, as a DOM function such as [window.alert]
    applies it to its argument.  A module namespace has no prototype and so
    no [toString]: its conversion throws, which is [None] here. *)
Definition to_string (v : value) : option string :=
  match v with
  | VUndefined => Some "undefined"
  | VString s => Some s
  | VError name message =>
      Some match name, message with
           | EmptyString, _ => message
           | _, EmptyString => name
           | _, _ => name +:+ ": " +:+ message
           end
  | VFunction source _ => Some source
  | VModule _ => None
  | VResponse _ => Some "[object Response]"
  | VPromise _ => Some "[object Promise]"
  | VHashChangeEvent _ _ => Some "[object HashChangeEvent]"
  end.

Definition cannot_convert : value :=
  VError "TypeError" "Cannot convert object to primitive value".

(** Promise resolution: resolving with a promise adopts that promise's
    state, resolving with anything else fulfils. *)
Fixpoint resolve (v : value) : settled :=
  match v with
  | VPromise (Fulfilled v') => resolve v'
  | VPromise (Rejected e) => Rejected e
  | _ => Fulfilled v
  end.

(** ** Strings *)

(** [s.substr(start)] for a non-negative [start]. *)
Fixpoint substr (start : nat) (s : string) : string :=
  match start, s with
  | 0, _ => s
  | S n, String _ t => substr n t
  | S _, EmptyString => EmptyString
  end.

(** [a || b] on strings: the empty string is the only falsy one. *)
Definition or_else (a b : string) : string :=
  match a with
  | EmptyString => b
  | String _ _ => a
  end.

Definition dquote : string := String "034"%char EmptyString.

(** [window.location.hash]: empty for an absent or empty fragment, the
    fragment after a [#] otherwise. *)
Definition location_hash (fragment : option string) : string :=
  match fragment with
  | None => EmptyString
  | Some EmptyString => EmptyString
  | Some f => "#" +:+ f
  end.

Definition location_href (base : string) (fragment : option string) : string :=
  match fragment with
  | None => base
  | Some f => base +:+ "#" +:+ f
  end.

(** [t] occurs in [s]. *)
Definition contains (s t : string) : Prop :=
  exists pre post, s = pre +:+ t +:+ post.

(** ** The page: document and observable effects *)

(** Where a promise comes from: the chain behind [import()], the chain
    behind [fetch], or a call that returned it. *)
Inductive origin : Type :=
| FromImport
| FromFetch
| FromCall.

Inductive event : Type :=
| EvImport (specifier : string)
| EvCall (callee : value) (args : list value)
| EvAlert (message : string)
| EvClassListAdd (node : nat) (token : string)
| EvFetch (url : string)
| EvSetTextContent (node : nat) (text : string)
| EvHighlightAll
| EvReload
| EvUncaught (e : value)
| EvUnhandledRejection (promise : origin) (reason : value).

(** An element, as far as the script observes it: the selectors it matches
    by its tag, id and attributes, its class list and its text content.  The
    script queries its anchor selector on the document as served and,
    later, [#code] only; neither a class added nor a text written changes
    what [#code] matches.  The document is the list of its elements in
    document order: the nesting of elements is not modelled, so nothing is
    said of the ancestors or the children of an element that is written. *)
Record element := Element {
  matches : string -> bool;
  classList : list string;
  textContent : string
}.

Record page := Page {
  dom : list element;
  trace : list event;
  reloading : bool
}.

(** ** Computations: state and exceptions *)

Inductive completion (A : Type) : Type :=
| Normal (a : A)
| Abrupt (e : value).
Arguments Normal {A} a.
Arguments Abrupt {A} e.

Definition js (S A : Type) : Type := S -> completion A * S.

Definition ret {S A} (a : A) : js S A := fun s => (Normal a, s).

Definition throw {S A} (e : value) : js S A := fun s => (Abrupt e, s).

Definition bind {S A B} (c : js S A) (k : A -> js S B) : js S B :=
  fun s =>
    match c s with
    | (Normal a, s') => k a s'
    | (Abrupt e, s') => (Abrupt e, s')
    end.

Notation "x <- c ;; k" := (bind c (fun x => k))
  (at level 100, c at next level, right associativity).
Notation "c ;; k" := (bind c (fun _ => k))
  (at level 100, right associativity).

Definition emit (e : event) : js page unit :=
  fun p => (Normal tt, Page (dom p) (trace p ++ [e]) (reloading p)).

(** ** Host functions *)

(** Index of the first [true]: the first element in document order that
    matches. *)
Fixpoint first_match (hits : list bool) : option nat :=
  match hits with
  | [] => None
  | true :: _ => Some 0
  | false :: rest => S <$> first_match rest
  end.

(** [document.querySelector(sel)]: the first matching element or null. *)
Definition query (sel : string) (d : list element) : option nat :=
  first_match ((fun e => matches e sel) <$> d).

Definition querySelector (sel : string) : js page (option nat) :=
  fun p => (Normal (query sel (dom p)), p).

Definition null_read (prop : string) : value :=
  VError "TypeError" ("Cannot read properties of null (reading '" +:+ prop +:+ "')").

Definition null_write (prop : string) : value :=
  VError "TypeError" ("Cannot set properties of null (setting '" +:+ prop +:+ "')").

Definition not_a_function (what : string) : value :=
  VError "TypeError" (what +:+ " is not a function").

(** [DOMTokenList.add]: the class list is a set. *)
Definition add_token (token : string) (l : list string) : list string :=
  if bool_decide (token ∈ l) then l else l ++ [token].

Definition add_class (token : string) (e : element) : element :=
  Element (matches e) (add_token token (classList e)) (textContent e).

Definition set_text (text : string) (e : element) : element :=
  Element (matches e) (classList e) text.

(** [node.classList.add(token)]; reading [classList] of null throws. *)
Definition classList_add (node : option nat) (token : string) : js page unit :=
  match node with
  | None => throw (null_read "classList")
  | Some n =>
      fun p => (Normal tt,
                Page (alter (add_class token) n (dom p))
                     (trace p ++ [EvClassListAdd n token]) (reloading p))
  end.

(** Conversion to the nullable DOM string of [textContent]. *)
Definition dom_string (v : value) : option string :=
  match v with
  | VUndefined => Some EmptyString
  | _ => to_string v
  end.

(** [node.textContent = text]; writing a property of null throws, and so
    does a value that has no string conversion. *)
Definition set_textContent (node : option nat) (text : value) : js page unit :=
  match node with
  | None => throw (null_write "textContent")
  | Some n =>
      match dom_string text with
      | None => throw cannot_convert
      | Some t =>
          fun p => (Normal tt,
                    Page (alter (set_text t) n (dom p))
                         (trace p ++ [EvSetTextContent n t]) (reloading p))
      end
  end.

(** [window.alert(v)]: the dialog shows the string [v] converts to; when the
    conversion throws, so does the call, and nothing is shown. *)
Definition alert (v : value) : js page value :=
  match to_string v with
  | Some message => emit (EvAlert message) ;; ret VUndefined
  | None => throw cannot_convert
  end.

(** The value of an expression statement is dropped.  A promise dropped with
    no reaction attached that rejects is reported to the console as an
    unhandled rejection. *)
Definition drop (v : value) : js page unit :=
  match resolve v with
  | Rejected e => emit (EvUnhandledRejection FromCall e)
  | Fulfilled _ => ret tt
  end.

(** [window.location.reload()] *)
Definition location_reload : js page value :=
  fun p => (Normal VUndefined, Page (dom p) (trace p ++ [EvReload]) true).

(** [f(args...)] *)
Definition call (what : string) (f : value) (args : list value) : js page value :=
  match f with
  | VFunction _ body =>
      emit (EvCall f args) ;;
      match body with
      | Returns v => ret v
      | Throws e => throw e
      end
  | _ => throw (not_a_function what)
  end.

(** [module.default] *)
Definition get_default (module : value) : js page value :=
  match module with
  | VModule d => ret d
  | VUndefined => throw (VError "TypeError" "Cannot read properties of undefined (reading 'default')")
  | _ => ret VUndefined
  end.

(** [res.text()] *)
Definition text (res : value) : js page value :=
  match res with
  | VResponse body => ret (VPromise body)
  | VUndefined => throw (VError "TypeError" "Cannot read properties of undefined (reading 'text')")
  | _ => throw (not_a_function "res.text")
  end.

(** Modelled from the spec: [highlightAll] of ./3rd-party/speed-highlight.js,
    which is not part of the sources; a highlighting pass that takes no
    argument, gives the script nothing back and leaves text contents alone. *)
Definition highlightAll : js page value :=
  emit EvHighlightAll ;; ret VUndefined.

(** ** Promise chains *)

Definition handler : Type := value -> js page value.

(** [.then(f)] reacts to fulfilment, [.catch(f)] to rejection. *)
Inductive reaction : Type :=
| OnFulfilled (f : handler)
| OnRejected (f : handler).

(** A pending chain: the state its head promise settles to and the reactions
    attached behind it, in order. *)
Record chain := Chain {
  source : origin;
  state : settled;
  reactions : list reaction
}.

Definition then_ (f : handler) (c : chain) : chain :=
  Chain (source c) (state c) (reactions c ++ [OnFulfilled f]).

Definition catch_ (f : handler) (c : chain) : chain :=
  Chain (source c) (state c) (reactions c ++ [OnRejected f]).

Notation "p |> f" := (f p) (at level 45, left associativity, only parsing).

(** The promise a reaction derives: resolved with what the handler returns,
    rejected with what it throws. *)
Definition settle (r : completion value * page) : settled * page :=
  match r with
  | (Normal v, p) => (resolve v, p)
  | (Abrupt e, p) => (Rejected e, p)
  end.

(** A reaction that does not apply passes the state on. *)
Definition react (r : reaction) (s : settled) (p : page) : settled * page :=
  match r, s with
  | OnFulfilled f, Fulfilled v => settle (f v p)
  | OnRejected f, Rejected e => settle (f e p)
  | _, _ => (s, p)
  end.

(** A rejection nothing handles is reported to the console only, with the
    promise it is the rejection of. *)
Definition finish (o : origin) (s : settled) (p : page) : page :=
  match s with
  | Fulfilled _ => p
  | Rejected e => Page (dom p) (trace p ++ [EvUnhandledRejection o e]) (reloading p)
  end.

(** One job of a chain: its next reaction, or its end. *)
Definition advance (c : chain) (p : page) : option chain * page :=
  match reactions c with
  | r :: rs => let '(s, p') := react r (state c) p in (Some (Chain (source c) s rs), p')
  | [] => (None, finish (source c) (state c) p)
  end.

(** A chain run to its end with nothing in between. *)
Fixpoint run_chain (o : origin) (s : settled) (rs : list reaction) (p : page) : page :=
  match rs with
  | [] => finish o s p
  | r :: rs' => let '(s', p') := react r s p in run_chain o s' rs' p'
  end.

(** ** The browser *)

(** What the server and the module loader answer. *)
Record host := Host {
  base_url : string;
  served_document : list element;
  import_module : string -> settled;
  fetch_resource : string -> settled
}.

Record browser := Browser {
  fragment : option string;
  window : page;
  onhashchange : option handler;
  jobs : list chain
}.

Definition lift {A} (c : js page A) : js browser A :=
  fun b =>
    let '(r, p) := c (window b) in
    (r, Browser (fragment b) p (onhashchange b) (jobs b)).

Definition get_hash : js browser string :=
  fun b => (Normal (location_hash (fragment b)), b).

(** [import(specifier)] *)
Definition dynamic_import (h : host) (specifier : string) : js browser chain :=
  lift (emit (EvImport specifier)) ;; ret (Chain FromImport (import_module h specifier) []).

(** [fetch(url)] *)
Definition fetch (h : host) (url : string) : js browser chain :=
  lift (emit (EvFetch url)) ;; ret (Chain FromFetch (fetch_resource h url) []).

(** The chain built by an expression statement is left to the event loop. *)
Definition spawn (c : chain) : js browser unit :=
  fun b => (Normal tt, Browser (fragment b) (window b) (onhashchange b) (jobs b ++ [c])).

Definition set_onhashchange (f : handler) : js browser unit :=
  fun b => (Normal tt, Browser (fragment b) (window b) (Some f) (jobs b)).

(** ** The script *)

(** [window.location.hash.substr(1) || "cells"] *)
Definition example (hash : string) : string :=
  or_else (substr 1 hash) "cells".

Definition module_path (ex : string) : string :=
  "./wasm/examples/" +:+ ex +:+ ".js".

Definition anchor_selector (ex : string) : string :=
  "a[href=" +:+ dquote +:+ "#" +:+ ex +:+ dquote +:+ "]".

Definition source_path (ex : string) : string :=
  "./sources/" +:+ ex +:+ ".rs".

(** [(module) => { module.default() }] *)
Definition on_module : handler :=
  fun module =>
    f <- get_default module ;;
    r <- call "module.default" f [] ;;
    drop r ;;
    ret VUndefined.

(** [err => { window.alert(err) }] *)
Definition on_error : handler :=
  fun err =>
    alert err ;;
    ret VUndefined.

(** [res => res.text()] *)
Definition on_response : handler :=
  fun res => text res.

(** [text => { document.querySelector('#code').textContent = text; highlightAll() }] *)
Definition on_text : handler :=
  fun text =>
    code <- querySelector "#code" ;;
    set_textContent code text ;;
    highlightAll ;;
    ret VUndefined.

(** [() => { window.location.reload() }] *)
Definition on_hashchange : handler :=
  fun _ =>
    location_reload ;;
    ret VUndefined.

Definition module_pipeline (h : host) (ex : string) : js browser unit :=
  p <- dynamic_import h (module_path ex) ;;
  spawn (p |> then_ on_module |> catch_ on_error).

Definition mark_active (ex : string) : js browser unit :=
  a <- lift (querySelector (anchor_selector ex)) ;;
  lift (classList_add a "active").

Definition source_pipeline (h : host) (ex : string) : js browser unit :=
  p <- fetch h (source_path ex) ;;
  spawn (p |> then_ on_response |> then_ on_text).

(** The statements of app.js, top to bottom. *)
Definition app (h : host) : js browser unit :=
  hash <- get_hash ;;
  let ex := example hash in
  module_pipeline h ex ;;
  mark_active ex ;;
  source_pipeline h ex ;;
  set_onhashchange on_hashchange.

(** ** Page load and event loop *)

Definition fresh (h : host) (f : option string) : browser :=
  Browser f (Page (served_document h) [] false) None [].

(** Loading the page runs the script once; an exception that escapes it
    ends it there and is reported to the console. *)
Definition load (h : host) (f : option string) : browser :=
  match app h (fresh h f) with
  | (Normal _, b) => b
  | (Abrupt e, b) =>
      Browser (fragment b) (Page (dom (window b)) (trace (window b) ++ [EvUncaught e])
                                 (reloading (window b)))
              (onhashchange b) (jobs b)
  end.

(** The event loop runs one job of the [i]-th pending chain; a chain that
    ended leaves the list. *)
Definition step_jobs (i : nat) (l : list chain) (p : page) : list chain * page :=
  match l !! i with
  | None => (l, p)
  | Some c =>
      let '(next, p') := advance c p in
      (match next with
       | Some c' => <[i:=c']> l
       | None => delete i l
       end, p')
  end.

Definition step (i : nat) (b : browser) : browser :=
  let '(l, p) := step_jobs i (jobs b) (window b) in
  Browser (fragment b) p (onhashchange b) l.

(** Chains take their turns in any order: a schedule names them. *)
Definition run (schedule : list nat) (b : browser) : browser :=
  foldl (fun b i => step i b) b schedule.

(** The address of the page changes to the same one with fragment [f].
    With no fragment this is an ordinary navigation: the page is loaded
    afresh.  With a fragment it is a navigation within the page: if the
    fragment differs from the current one, the [hashchange] handler, if one
    is set, is called with the event, and a reload it asks for loads the
    page afresh at the new address. *)
Definition navigate (h : host) (f : option string) (b : browser) : browser :=
  match f with
  | None => load h None
  | Some _ =>
      if bool_decide (f = fragment b) then b else
      match onhashchange b with
      | None => Browser f (window b) None (jobs b)
      | Some handle =>
          let ev := VHashChangeEvent (location_href (base_url h) (fragment b))
                                     (location_href (base_url h) f) in
          let '(_, p) := handle ev (window b) in
          if reloading p then load h f
          else Browser f p (onhashchange b) (jobs b)
      end
  end.

(** ** Observations *)

Definition alerts (t : list event) : list string :=
  omap (fun e => match e with EvAlert m => Some m | _ => None end) t.

Definition imports (t : list event) : list string :=
  omap (fun e => match e with EvImport s => Some s | _ => None end) t.

Definition fetches (t : list event) : list string :=
  omap (fun e => match e with EvFetch u => Some u | _ => None end) t.

Definition calls (t : list event) : list (value * list value) :=
  omap (fun e => match e with EvCall f args => Some (f, args) | _ => None end) t.

Definition text_writes (t : list event) : list (nat * string) :=
  omap (fun e => match e with EvSetTextContent n s => Some (n, s) | _ => None end) t.

Definition class_writes (t : list event) : list (nat * string) :=
  omap (fun e => match e with EvClassListAdd n s => Some (n, s) | _ => None end) t.

Definition uncaught (t : list event) : list value :=
  omap (fun e => match e with EvUncaught v => Some v | _ => None end) t.

Definition unhandled (t : list event) : list value :=
  omap (fun e => match e with EvUnhandledRejection _ v => Some v | _ => None end) t.

(** The unhandled rejections of the promises of one origin. *)
Definition unhandled_of (o : origin) (t : list event) : list value :=
  omap (fun e => match e, o with
                 | EvUnhandledRejection FromImport v, FromImport
                 | EvUnhandledRejection FromFetch v, FromFetch
                 | EvUnhandledRejection FromCall v, FromCall => Some v
                 | _, _ => None
                 end) t.

Definition finished (b : browser) : Prop := jobs b = [].

(** A chain on its own for [k] jobs. *)
Fixpoint alone (k : nat) (c : chain) (p : page) : option chain * page :=
  match k with
  | 0 => (Some c, p)
  | S k' =>
      match advance c p with
      | (Some c', p') => alone k' c' p'
      | (None, p') => (None, p')
      end
  end.

(** Jobs left: one per reaction and one to end the chain. *)
Definition work (l : list chain) : nat :=
  sum_list ((fun c => S (length (reactions c))) <$> l).

(** ** Views of the page

    For a view [obs] of the page: a chain is quiet when none of its jobs
    changes the view; a reaction is determined by the view when what it
    settles to and what it does to the view depend on the page through the
    view only. *)

Section Views.

Context {X : Type} (obs : page -> X).

Fixpoint quiet (o : origin) (rs : list reaction) (s : settled) : Prop :=
  match rs with
  | [] => forall p, obs (finish o s p) = obs p
  | r :: rs' => forall p, obs (react r s p).2 = obs p /\ quiet o rs' (react r s p).1
  end.

Definition quiet_chain (c : chain) : Prop := quiet (source c) (reactions c) (state c).

Definition determined (r : reaction) : Prop :=
  forall s p p', obs p = obs p' ->
    (react r s p).1 = (react r s p').1 /\ obs (react r s p).2 = obs (react r s p').2.

Definition finish_determined : Prop :=
  forall o s p p', obs p = obs p' -> obs (finish o s p) = obs (finish o s p').

(** The chain [c0], started on page [p0], is [k] jobs on; the other
    pending chains are quiet. *)
Definition tracks (c0 : chain) (p0 : page) (k : nat) (b : browser) : Prop :=
  exists front rest,
    jobs b = front ++ option_list (alone k c0 p0).1 ++ rest /\
    Forall quiet_chain front /\ Forall quiet_chain rest /\
    obs (window b) = obs (alone k c0 p0).2.

End Views.

(** The events of the module pipeline, among them the rejections left
    unhandled of its own promises; all the others belong to the page and to
    the source display. *)
Definition module_event (e : event) : bool :=
  match e with
  | EvImport _ | EvCall _ _ | EvAlert _ => true
  | EvUnhandledRejection FromImport _ | EvUnhandledRejection FromCall _ => true
  | _ => false
  end.

Definition page_event (e : event) : bool := negb (module_event e).

Definition module_view (p : page) : list event :=
  List.filter module_event (trace p).

Definition page_view (p : page) : list element * list event :=
  (dom p, List.filter page_event (trace p)).

(** ** What the handlers do, in closed form *)

Definition log (evs : list event) (p : page) : page :=
  Page (dom p) (trace p ++ evs) (reloading p).

(** The report of a dropped promise that rejects. *)
Definition dropped (v : value) : list event :=
  match resolve v with
  | Rejected e => [EvUnhandledRejection FromCall e]
  | Fulfilled _ => []
  end.

(** The report of a chain that ends rejected. *)
Definition ended (o : origin) (s : settled) : list event :=
  match s with
  | Rejected e => [EvUnhandledRejection o e]
  | Fulfilled _ => []
  end.

(** [.then((module) => { module.default() })]: what the derived promise
    settles to and the events of the handler. *)
Definition then_module (s : settled) : settled * list event :=
  match s with
  | Rejected e => (Rejected e, [])
  | Fulfilled (VModule (VFunction src (Returns v))) =>
      (Fulfilled VUndefined, EvCall (VFunction src (Returns v)) [] :: dropped v)
  | Fulfilled (VModule (VFunction src (Throws e))) =>
      (Rejected e, [EvCall (VFunction src (Throws e)) []])
  | Fulfilled VUndefined =>
      (Rejected (VError "TypeError" "Cannot read properties of undefined (reading 'default')"), [])
  | Fulfilled _ => (Rejected (not_a_function "module.default"), [])
  end.

(** [.catch(err => { window.alert(err) })] *)
Definition catch_error (s : settled) : settled * list event :=
  match s with
  | Rejected e =>
      match to_string e with
      | Some message => (Fulfilled VUndefined, [EvAlert message])
      | None => (Rejected cannot_convert, [])
      end
  | Fulfilled v => (Fulfilled v, [])
  end.

(** [.then(res => res.text())] *)
Definition then_response (s : settled) : settled :=
  match s with
  | Rejected e => Rejected e
  | Fulfilled (VResponse body) => resolve (VPromise body)
  | Fulfilled VUndefined =>
      Rejected (VError "TypeError" "Cannot read properties of undefined (reading 'text')")
  | Fulfilled _ => Rejected (not_a_function "res.text")
  end.

(** [.then(text => { ... textContent = text; highlightAll() })] *)
Definition then_text (s : settled) (p : page) : settled * page :=
  match s with
  | Rejected e => (Rejected e, p)
  | Fulfilled t =>
      match query "#code" (dom p), dom_string t with
      | None, _ => (Rejected (null_write "textContent"), p)
      | Some _, None => (Rejected cannot_convert, p)
      | Some n, Some txt =>
          (Fulfilled VUndefined,
           Page (alter (set_text txt) n (dom p))
                (trace p ++ [EvSetTextContent n txt; EvHighlightAll])
                (reloading p))
      end
  end.

Definition selector (f : option string) : string := example (location_hash f).

Definition module_chain (h : host) (ex : string) : chain :=
  Chain FromImport (import_module h (module_path ex))
        [OnFulfilled on_module; OnRejected on_error].

Definition source_chain (h : host) (ex : string) : chain :=
  Chain FromFetch (fetch_resource h (source_path ex))
        [OnFulfilled on_response; OnFulfilled on_text].

(** The events of the module chain run to its end. *)
Definition module_events (s : settled) : list event :=
  (then_module s).2 ++ (catch_error (then_module s).1).2
    ++ ended FromImport (catch_error (then_module s).1).1.

(** The events of its first [k] jobs. *)
Definition module_events_upto (k : nat) (s : settled) : list event :=
  match k with
  | 0 => []
  | 1 => (then_module s).2
  | 2 => (then_module s).2 ++ (catch_error (then_module s).1).2
  | _ => module_events s
  end.

(** The error the module pipeline fails with, if it fails: the import
    rejects, or the call of the default export throws, or there is no
    default export to call. *)
Definition module_failure (s : settled) : option value :=
  match s with
  | Rejected e => Some e
  | Fulfilled (VModule (VFunction _ (Returns _))) => None
  | Fulfilled (VModule (VFunction _ (Throws e))) => Some e
  | Fulfilled VUndefined =>
      Some (VError "TypeError" "Cannot read properties of undefined (reading 'default')")
  | Fulfilled _ => Some (not_a_function "module.default")
  end.

(** The error the source display fails with, if it fails: the fetch
    rejects, or reading the body does, or there is no display element, or
    what was read has no string conversion. *)
Definition source_failure (d : list element) (s : settled) : option value :=
  match then_response s with
  | Rejected e => Some e
  | Fulfilled t =>
      match query "#code" d, dom_string t with
      | None, _ => Some (null_write "textContent")
      | Some _, None => Some cannot_convert
      | Some _, Some _ => None
      end
  end.

(** The alerts of the module pipeline: that of the error it fails with, when
    the error has a string conversion. *)
Definition module_alerts (s : settled) : list string :=
  match module_failure s with
  | Some e =>
      match to_string e with
      | Some message => [message]
      | None => []
      end
  | None => []
  end.

Definition only_then (r : reaction) : Prop :=
  match r with
  | OnFulfilled _ => True
  | OnRejected _ => False
  end.


Definition left_by_catch (s : settled) : list value :=
  match module_failure s with
  | Some e =>
      match to_string e with
      | Some _ => []
      | None => [cannot_convert]
      end
  | None => []
  end.

(** What the document shows once a display has run on it. *)
Definition displayed (d : list element) (s : settled) : list element :=
  match then_response s, query "#code" d with
  | Fulfilled t, Some n =>
      match dom_string t with
      | Some txt => alter (set_text txt) n d
      | None => d
      end
  | _, _ => d
  end.

(** ** Running to the end *)

Definition drain (b : browser) : browser :=
  run (repeat 0 (work (jobs b))) b.

(** The source display run again on a settled page: the statement of the
    script, then the event loop to the end. *)
Definition display_source (h : host) (ex : string) (b : browser) : browser :=
  drain (source_pipeline h ex b).2.

(** The text the display element shows. *)
Definition code_text (b : browser) : option string :=
  match query "#code" (dom (window b)) with
  | Some n => textContent <$> dom (window b) !! n
  | None => None
  end.

(** ** The selector as the specification words it *)

(** Modelled on the words of the specification: the fragment if present,
    else the fixed default identifier. *)
Definition resolve_selector (fragment : string) : string :=
  if bool_decide (fragment = EmptyString) then "cells" else fragment.

(** The marking step as the specification words it: with no matching
    anchor it does not throw and the rest of the script goes on. *)
Definition marking_is_silent (h : host) (f : option string) : Prop :=
  query (anchor_selector (selector f)) (served_document h) = None ->
  uncaught (trace (window (load h f))) = [] /\
  fetches (trace (window (load h f))) = [source_path (selector f)] /\
  is_Some (onhashchange (load h f)).

(** The failure path as the specification words it: whenever the import
    rejects, one alert is shown. *)
Definition alerts_every_failure (h : host) (f : option string) (schedule : list nat) : Prop :=
  finished (run schedule (load h f)) ->
  forall E, import_module h (module_path (selector f)) = Rejected E ->
    exists msg, alerts (trace (window (run schedule (load h f)))) = [msg].

(** Navigation as the specification words it: every change of fragment on a
    page the script has loaded reloads it, and both pipelines run again for
    the new fragment. *)
Definition reloads_and_reruns (h : host) (f f' : option string) (schedule : list nat) : Prop :=
  f' <> f ->
  navigate h f' (run schedule (load h f)) = load h f' /\
  imports (trace (window (navigate h f' (run schedule (load h f))))) =
    [module_path (selector f')] /\
  fetches (trace (window (navigate h f' (run schedule (load h f))))) =
    [source_path (selector f')].

(** ** A sample site *)

Definition anchor (href : string) : element :=
  Element (fun sel => String.eqb sel ("a[href=" +:+ dquote +:+ href +:+ dquote +:+ "]"))
          [] EmptyString.

Definition code_block : element :=
  Element (fun sel => String.eqb sel "#code") [] EmptyString.

(** Two links and the display element; the module of "cells" loads and its
    default export returns a promise that rejects, any other import is
    refused; the source of "cells" is served, any other fetch fails. *)
Definition sample : host :=
  Host "https://example.org/"
       [anchor "#cells"; anchor "#foo"; code_block]
       (fun specifier =>
          if String.eqb specifier "./wasm/examples/cells.js"
          then Fulfilled (VModule (VFunction "async function init() {}"
                                             (Returns (VPromise (Rejected (VString "late"))))))
          else Rejected (VError "TypeError" "Failed to fetch dynamically imported module"))
       (fun url =>
          if String.eqb url "./sources/cells.rs"
          then Fulfilled (VResponse (Fulfilled (VString "fn main() {}")))
          else Rejected (VError "TypeError" "Failed to fetch")).

(** ** The document after the script

    What the top level of the script leaves of the served document, and the
    rejection the source display ends with, if any. *)

(** The document as the script's top level leaves it. *)
Definition marked (h : host) (f : option string) : list element :=
  match query (anchor_selector (selector f)) (served_document h) with
  | Some n => alter (add_class "active") n (served_document h)
  | None => served_document h
  end.


(** A site whose modules fail to evaluate by throwing a module namespace
    object, which has no string conversion. *)
Definition thrower : host :=
  Host "https://example.org/"
       [anchor "#cells"; code_block]
       (fun _ => Rejected (VModule VUndefined))
       (fun _ => Fulfilled (VResponse (Fulfilled (VString "fn main() {}")))).

(** * Properties *)

(** ** The event loop *)

Lemma delete_app_l {A} (l1 l2 : list A) i :
  i < length l1 -> delete i (l1 ++ l2) = delete i l1 ++ l2.
Proof.
  revert i. induction l1 as [|x l1 IH]; intros [|i] Hi; simpl in *; try lia; [done|].
  f_equal. apply IH. lia.
Qed.

Lemma delete_app_r {A} (l1 l2 : list A) i :
  delete (length l1 + i) (l1 ++ l2) = l1 ++ delete i l2.
Proof. induction l1 as [|x l1 IH]; simpl; [done|]. by f_equal. Qed.

Lemma step_jobs_app_l i l1 l2 p :
  i < length l1 ->
  step_jobs i (l1 ++ l2) p = ((step_jobs i l1 p).1 ++ l2, (step_jobs i l1 p).2).
Proof.
  intros Hi. unfold step_jobs. rewrite lookup_app_l by done.
  destruct (l1 !! i) as [c|] eqn:Hc; [|done].
  destruct (advance c p) as [[c'|] p']; simpl.
  - by rewrite insert_app_l.
  - by rewrite delete_app_l.
Qed.

Lemma step_jobs_app_r i l1 l2 p :
  length l1 <= i ->
  step_jobs i (l1 ++ l2) p =
    (l1 ++ (step_jobs (i - length l1) l2 p).1, (step_jobs (i - length l1) l2 p).2).
Proof.
  intros Hi. unfold step_jobs. rewrite lookup_app_r by done.
  destruct (l2 !! (i - length l1)) as [c|] eqn:Hc; [|done].
  destruct (advance c p) as [[c'|] p']; simpl.
  - f_equal. replace i with (length l1 + (i - length l1)) at 1 by lia.
    by rewrite insert_app_r.
  - f_equal. replace i with (length l1 + (i - length l1)) at 1 by lia.
    by rewrite delete_app_r.
Qed.

Lemma step_jobs_one i c p :
  step_jobs i [c] p =
    match i with
    | 0 => (option_list (advance c p).1, (advance c p).2)
    | S _ => ([c], p)
    end.
Proof.
  destruct i as [|i]; [|done]. unfold step_jobs. simpl.
  by destruct (advance c p) as [[c'|] p'].
Qed.

(** ** Chains do not disturb each other

    A chain determined by a view that every other pending chain leaves alone
    goes through the event loop as it would alone. *)

Section Isolation.

Context {X : Type} (obs : page -> X).

Lemma quiet_advance c p :
  quiet_chain obs c ->
  obs (advance c p).2 = obs p /\ from_option (quiet_chain obs) True (advance c p).1.
Proof.
  destruct c as [o s rs]. unfold quiet_chain, advance. simpl.
  destruct rs as [|r rs]; simpl; intros Hq.
  - by split.
  - destruct (Hq p) as [Ho Hq']. by destruct (react r s p) as [s' p'].
Qed.

Lemma quiet_step_jobs i l p :
  Forall (quiet_chain obs) l ->
  Forall (quiet_chain obs) (step_jobs i l p).1 /\ obs (step_jobs i l p).2 = obs p.
Proof.
  intros Hl. unfold step_jobs.
  destruct (l !! i) as [c|] eqn:Hc; [|done].
  assert (quiet_chain obs c) as Hqc by (eapply Forall_lookup_1; eauto).
  destruct (quiet_advance c p Hqc) as [Ho Hn].
  destruct (advance c p) as [[c'|] p']; simpl in *; split; try done.
  - by apply Forall_insert.
  - by apply Forall_delete.
Qed.

Lemma determined_advance c p p' :
  Forall (determined obs) (reactions c) -> finish_determined obs -> obs p = obs p' ->
  (advance c p).1 = (advance c p').1 /\ obs (advance c p).2 = obs (advance c p').2.
Proof.
  destruct c as [o s rs]. unfold advance. simpl. intros Hd Hf Ho.
  destruct rs as [|r rs]; simpl.
  - split; [done|]. by apply Hf.
  - apply Forall_cons in Hd as [Hr _]. destruct (Hr s p p' Ho) as [H1 H2].
    destruct (react r s p) as [s1 p1], (react r s p') as [s2 p2].
    simpl in *. by subst.
Qed.

Lemma alone_S k c p :
  alone (S k) c p =
    match alone k c p with
    | (Some c', p') => advance c' p'
    | (None, p') => (None, p')
    end.
Proof.
  revert c p. induction k as [|k IH]; intros c p.
  - simpl. by destruct (advance c p) as [[c'|] p'].
  - change (alone (S (S k)) c p) with
      (match advance c p with
       | (Some c', p') => alone (S k) c' p'
       | (None, p') => (None, p')
       end).
    simpl. destruct (advance c p) as [[c'|] p']; [|done]. apply IH.
Qed.

Lemma alone_reactions (P : reaction -> Prop) k c p c' p' :
  Forall P (reactions c) -> alone k c p = (Some c', p') -> Forall P (reactions c').
Proof.
  revert c p. induction k as [|k IH]; intros c p Hc; simpl.
  - by intros [= <- <-].
  - destruct c as [o s rs]. unfold advance. simpl in *.
    destruct rs as [|r rs]; [done|].
    destruct (react r s p) as [s1 p1]. apply IH. simpl.
    by apply Forall_cons in Hc as [_ ?].
Qed.

Lemma alone_finished k c p p' :
  alone k c p = (None, p') -> p' = run_chain (source c) (state c) (reactions c) p.
Proof.
  revert c p. induction k as [|k IH]; intros [o s rs] p; simpl; [done|].
  unfold advance. simpl. destruct rs as [|r rs]; simpl.
  - by intros [= <-].
  - destruct (react r s p) as [s1 p1]. intros H. by apply IH in H.
Qed.

Lemma tracks_step c0 p0 k i b :
  Forall (determined obs) (reactions c0) -> finish_determined obs ->
  tracks obs c0 p0 k b ->
  tracks obs c0 p0 k (step i b) \/ tracks obs c0 p0 (S k) (step i b).
Proof.
  intros Hd Hf (front & rest & Hj & Hfr & Hre & Ho).
  unfold step. rewrite Hj.
  destruct (decide (i < length front)) as [Hi|Hi].
  { left. rewrite step_jobs_app_l by done.
    destruct (quiet_step_jobs i front (window b) Hfr) as [Hq Ho'].
    exists (step_jobs i front (window b)).1, rest. simpl.
    repeat split; try done. congruence. }
  rewrite step_jobs_app_r by lia.
  set (j := i - length front).
  destruct (alone k c0 p0) as [[c|] pk] eqn:Hk; simpl in *.
  - change (c :: rest) with ([c] ++ rest). destruct j as [|j].
    + right. rewrite (step_jobs_app_l 0 [c]) by (simpl; lia).
      rewrite step_jobs_one. simpl.
      assert (Forall (determined obs) (reactions c)) as Hdc
        by (eapply alone_reactions; eauto).
      destruct (determined_advance c (window b) pk Hdc Hf Ho) as [H1 H2].
      exists front, rest. rewrite alone_S, Hk. simpl.
      rewrite <- H1, <- H2. by repeat split.
    + left. rewrite (step_jobs_app_r (S j) [c]) by (simpl; lia). simpl.
      rewrite Nat.sub_0_r.
      destruct (quiet_step_jobs j rest (window b) Hre) as [Hq Ho'].
      exists front, (step_jobs j rest (window b)).1. rewrite Hk. simpl.
      repeat split; try done. congruence.
  - left. destruct (quiet_step_jobs j rest (window b) Hre) as [Hq Ho'].
    exists front, (step_jobs j rest (window b)).1. rewrite Hk. simpl.
    repeat split; try done. congruence.
Qed.

Lemma tracks_run c0 p0 schedule : forall k b,
  Forall (determined obs) (reactions c0) -> finish_determined obs ->
  tracks obs c0 p0 k b ->
  exists k', tracks obs c0 p0 k' (run schedule b).
Proof.
  induction schedule as [|i schedule IH]; intros k b Hd Hf Ht; simpl.
  - by exists k.
  - destruct (tracks_step c0 p0 k i b Hd Hf Ht) as [H|H]; eapply IH; eauto.
Qed.

Lemma tracks_start front c rest b :
  jobs b = front ++ c :: rest ->
  Forall (quiet_chain obs) front -> Forall (quiet_chain obs) rest ->
  tracks obs c (window b) 0 b.
Proof. intros Hj Hfr Hre. exists front, rest. by repeat split. Qed.

(** At any time the view is the one the chain alone has after some
    number of its jobs. *)
Theorem isolation front c rest b schedule :
  jobs b = front ++ c :: rest ->
  Forall (quiet_chain obs) front -> Forall (quiet_chain obs) rest ->
  Forall (determined obs) (reactions c) -> finish_determined obs ->
  exists k, obs (window (run schedule b)) = obs (alone k c (window b)).2 /\
    (finished (run schedule b) -> (alone k c (window b)).1 = None).
Proof.
  intros Hj Hfr Hre Hd Hf.
  destruct (tracks_run c (window b) schedule 0 b Hd Hf
              (tracks_start front c rest b Hj Hfr Hre))
    as (k & front' & rest' & Hj' & _ & _ & Ho).
  exists k. split; [done|]. unfold finished. rewrite Hj'. intros Hnil.
  apply app_eq_nil in Hnil as [_ Hnil]. apply app_eq_nil in Hnil as [Hnil _].
  by destruct (alone k c (window b)).1.
Qed.

(** Once every chain has ended the view is the one the chain run alone
    to its end gives. *)
Corollary isolation_finished front c rest b schedule :
  jobs b = front ++ c :: rest ->
  Forall (quiet_chain obs) front -> Forall (quiet_chain obs) rest ->
  Forall (determined obs) (reactions c) -> finish_determined obs ->
  finished (run schedule b) ->
  obs (window (run schedule b)) =
    obs (run_chain (source c) (state c) (reactions c) (window b)).
Proof.
  intros Hj Hfr Hre Hd Hf Hfin.
  destruct (isolation front c rest b schedule Hj Hfr Hre Hd Hf) as (k & Ho & Hk).
  specialize (Hk Hfin). rewrite Ho. f_equal.
  apply (alone_finished k). by destruct (alone k c (window b)) as [o p']; simpl in *; subst.
Qed.

(** Quiet chains only: the view never changes. *)
Lemma quiet_run schedule : forall b,
  Forall (quiet_chain obs) (jobs b) ->
  obs (window (run schedule b)) = obs (window b) /\
  Forall (quiet_chain obs) (jobs (run schedule b)).
Proof.
  induction schedule as [|i schedule IH]; intros b Hq; simpl; [done|].
  destruct (quiet_step_jobs i (jobs b) (window b) Hq) as [Hq' Ho].
  destruct (IH (step i b)) as [H1 H2].
  - unfold step. by destruct (step_jobs i (jobs b) (window b)).
  - split; [|done]. rewrite H1. unfold step.
    by destruct (step_jobs i (jobs b) (window b)).
Qed.

End Isolation.

(** ** What the handlers do *)

Lemma log_nil p : log [] p = p.
Proof. destruct p. unfold log. simpl. by rewrite app_nil_r. Qed.

Lemma log_log evs1 evs2 p : log evs2 (log evs1 p) = log (evs1 ++ evs2) p.
Proof. unfold log. simpl. by rewrite app_assoc. Qed.

Lemma react_on_module s p :
  react (OnFulfilled on_module) s p = ((then_module s).1, log (then_module s).2 p).
Proof.
  destruct s as [v|e]; simpl; [|by rewrite log_nil].
  destruct v as [| | | src [v|e] |d| | |]; simpl; try by rewrite log_nil.
  destruct d as [| | | src [v|e] | | | |]; simpl; try by rewrite ?log_nil.
  unfold on_module, get_default, call, bind, drop, dropped, emit, ret, log. simpl.
  destruct (resolve v) as [v'|e']; simpl; [done|]. by rewrite <- app_assoc.
Qed.

Lemma react_on_error s p :
  react (OnRejected on_error) s p = ((catch_error s).1, log (catch_error s).2 p).
Proof.
  destruct s as [v|e]; simpl; [by rewrite log_nil|].
  unfold on_error, alert, bind. destruct (to_string e) as [m|]; simpl; by rewrite ?log_nil.
Qed.

Lemma react_on_response s p :
  react (OnFulfilled on_response) s p = (then_response s, p).
Proof. destruct s as [v|e]; [|done]. by destruct v. Qed.

Lemma react_on_text s p :
  react (OnFulfilled on_text) s p = then_text s p.
Proof.
  destruct s as [v|e]; [|done].
  unfold then_text, react, on_text, bind, querySelector, set_textContent.
  destruct (query "#code" (dom p)) as [n|]; simpl; [|done].
  destruct (dom_string v) as [txt|]; simpl; [|done].
  by rewrite <- app_assoc.
Qed.

(** ** The page after the script has run *)

Lemma load_eq h f :
  load h f =
    match query (anchor_selector (selector f)) (served_document h) with
    | None =>
        Browser f
          (Page (served_document h)
                [EvImport (module_path (selector f)); EvUncaught (null_read "classList")]
                false)
          None [module_chain h (selector f)]
    | Some n =>
        Browser f
          (Page (alter (add_class "active") n (served_document h))
                [EvImport (module_path (selector f)); EvClassListAdd n "active";
                 EvFetch (source_path (selector f))]
                false)
          (Some on_hashchange)
          [module_chain h (selector f); source_chain h (selector f)]
    end.
Proof.
  unfold load, app, bind, get_hash, module_pipeline, mark_active, source_pipeline,
    fresh, lift, querySelector, bind. simpl.
  fold (selector f).
  by destruct (query (anchor_selector (selector f)) (served_document h)).
Qed.

(** ** Two views of the page *)

Lemma omap_filter {A} (keep : event -> bool) (f : event -> option A) t :
  (forall e, keep e = false -> f e = None) ->
  omap f (List.filter keep t) = omap f t.
Proof.
  intros Hf. induction t as [|e t IH]; [done|].
  cbn [List.filter]. destruct (keep e) eqn:He.
  - change (omap f (e :: List.filter keep t))
      with (match f e with Some y => y :: omap f (List.filter keep t)
                         | None => omap f (List.filter keep t) end).
    rewrite IH. done.
  - rewrite IH. change (omap f (e :: t))
      with (match f e with Some y => y :: omap f t | None => omap f t end).
    by rewrite (Hf e He).
Qed.

Ltac by_event :=
  let e := fresh in
  intros e; destruct e;
  try match goal with o : origin |- _ => destruct o end;
  cbv; congruence.

Lemma alerts_module_view p : alerts (trace p) = alerts (module_view p).
Proof. symmetry. apply omap_filter. by_event. Qed.

Lemma calls_module_view p : calls (trace p) = calls (module_view p).
Proof. symmetry. apply omap_filter. by_event. Qed.

Lemma imports_module_view p : imports (trace p) = imports (module_view p).
Proof. symmetry. apply omap_filter. by_event. Qed.

Lemma fetches_page_view p : fetches (trace p) = fetches (page_view p).2.
Proof. symmetry. apply omap_filter. by_event. Qed.

Lemma text_writes_page_view p : text_writes (trace p) = text_writes (page_view p).2.
Proof. symmetry. apply omap_filter. by_event. Qed.

Lemma class_writes_page_view p : class_writes (trace p) = class_writes (page_view p).2.
Proof. symmetry. apply omap_filter. by_event. Qed.

Lemma unhandled_of_page_view p :
  unhandled_of FromFetch (trace p) = unhandled_of FromFetch (page_view p).2.
Proof. symmetry. apply omap_filter. by_event. Qed.

Lemma unhandled_of_import_view p :
  unhandled_of FromImport (trace p) = unhandled_of FromImport (module_view p).
Proof. symmetry. apply omap_filter. by_event. Qed.


Lemma uncaught_page_view p : uncaught (trace p) = uncaught (page_view p).2.
Proof. symmetry. apply omap_filter. by_event. Qed.

Lemma module_view_log evs p :
  module_view (log evs p) = module_view p ++ List.filter module_event evs.
Proof. unfold module_view, log. simpl. apply List.filter_app. Qed.

Lemma page_view_log evs p :
  page_view (log evs p) = (dom p, (page_view p).2 ++ List.filter page_event evs).
Proof. unfold page_view, log. simpl. by rewrite List.filter_app. Qed.

Lemma finish_log o s p : finish o s p = log (ended o s) p.
Proof. destruct s; [by rewrite log_nil|done]. Qed.

(** The module chain is determined by its own events and leaves the rest of
    the page alone. *)
Lemma module_chain_determined h ex :
  Forall (determined module_view) (reactions (module_chain h ex)).
Proof.
  repeat apply Forall_cons_2; [| |apply Forall_nil_2]; intros s p p' Hv.
  - rewrite !react_on_module. simpl. by rewrite !module_view_log, Hv.
  - rewrite !react_on_error. simpl. by rewrite !module_view_log, Hv.
Qed.

Lemma module_view_finish : finish_determined module_view.
Proof. intros o s p p' Hv. rewrite !finish_log, !module_view_log. by rewrite Hv. Qed.

Lemma then_module_page_events s : List.filter page_event (then_module s).2 = [].
Proof.
  destruct s as [v|e]; [|done]. destruct v as [| | | | d | | |]; try done.
  destruct d as [| | | src [v|e] | | | |]; try done.
  unfold then_module, dropped. cbn [snd]. by destruct (resolve v).
Qed.

Lemma catch_error_page_events s : List.filter page_event (catch_error s).2 = [].
Proof. destruct s as [v|e]; [done|]. simpl. by destruct (to_string e). Qed.

Lemma ended_import_page_events s : List.filter page_event (ended FromImport s) = [].
Proof. by destruct s. Qed.

Lemma module_chain_quiet h ex : quiet_chain page_view (module_chain h ex).
Proof.
  unfold quiet_chain. cbn [quiet reactions state module_chain].
  intros p. rewrite react_on_module. cbn [fst snd]. split.
  { rewrite page_view_log, then_module_page_events, app_nil_r. done. }
  intros p'. rewrite react_on_error. cbn [fst snd]. split.
  { rewrite page_view_log, catch_error_page_events, app_nil_r. done. }
  intros p''. rewrite finish_log, page_view_log, ended_import_page_events, app_nil_r.
  done.
Qed.

(** The source chain is determined by the page and shows nothing of the
    module pipeline's. *)
Lemma source_chain_determined h ex :
  Forall (determined page_view) (reactions (source_chain h ex)).
Proof.
  repeat apply Forall_cons_2; [| |apply Forall_nil_2]; intros s p p' Hv.
  - rewrite !react_on_response. done.
  - rewrite !react_on_text. unfold page_view in Hv. injection Hv as Hd Ht.
    unfold then_text. destruct s as [t|e]; simpl.
    + rewrite <- Hd. destruct (query "#code" (dom p)) as [n|]; simpl.
      * destruct (dom_string t) as [txt|]; simpl.
        -- split; [done|]. unfold page_view. simpl.
           by rewrite !List.filter_app, Hd, Ht.
        -- split; [done|]. unfold page_view. by rewrite Hd, Ht.
      * split; [done|]. unfold page_view. by rewrite Hd, Ht.
    + split; [done|]. unfold page_view. by rewrite Hd, Ht.
Qed.

Lemma page_view_finish : finish_determined page_view.
Proof.
  intros o s p p' Hv. rewrite !finish_log, !page_view_log.
  unfold page_view in Hv. injection Hv as Hd Ht. simpl. by rewrite Hd, Ht.
Qed.

Lemma source_chain_quiet h ex : quiet_chain module_view (source_chain h ex).
Proof.
  unfold quiet_chain. cbn [quiet reactions state source_chain].
  intros p. rewrite react_on_response. cbn [fst snd].
  split; [done|]. intros p'. rewrite react_on_text. split.
  { unfold then_text. destruct (then_response _) as [t|e]; [|done].
    destruct (query "#code" (dom p')) as [n|]; [|done].
    destruct (dom_string t) as [txt|]; [|done].
    unfold module_view. simpl. rewrite List.filter_app. simpl. by rewrite app_nil_r. }
  intros p''. rewrite finish_log, module_view_log.
  destruct (then_text _ p').1; simpl; by rewrite app_nil_r.
Qed.

(** ** The two chains on their own *)

Ltac chain_steps :=
  repeat (cbn [alone advance run_chain reactions state source];
          first [rewrite react_on_module | rewrite react_on_error
                | rewrite react_on_response | rewrite react_on_text]).

Lemma alone_module_chain k h ex p :
  alone k (module_chain h ex) p =
    (match k with
     | 0 => Some (module_chain h ex)
     | 1 => Some (Chain FromImport (then_module (import_module h (module_path ex))).1
                        [OnRejected on_error])
     | 2 => Some (Chain FromImport
                        (catch_error (then_module (import_module h (module_path ex))).1).1 [])
     | _ => None
     end,
     log (module_events_upto k (import_module h (module_path ex))) p).
Proof.
  unfold module_chain. destruct k as [|[|[|k]]]; chain_steps; cbn [alone].
  - by rewrite log_nil.
  - done.
  - by rewrite log_log.
  - rewrite log_log. cbn [advance reactions state source].
    by rewrite finish_log, log_log, <- app_assoc.
Qed.

Lemma alone_source_chain k h ex p :
  alone k (source_chain h ex) p =
    let s1 := then_response (fetch_resource h (source_path ex)) in
    match k with
    | 0 => (Some (source_chain h ex), p)
    | 1 => (Some (Chain FromFetch s1 [OnFulfilled on_text]), p)
    | 2 => (Some (Chain FromFetch (then_text s1 p).1 []), (then_text s1 p).2)
    | _ => (None, finish FromFetch (then_text s1 p).1 (then_text s1 p).2)
    end.
Proof.
  unfold source_chain. destruct k as [|[|[|k]]]; chain_steps; cbn [alone]; try done.
  - by destruct (then_text _ p).
  - by destruct (then_text _ p).
Qed.

Ltac by_module s :=
  destruct s as [[| | | | [| | | ? [?|?] | | | |] | | |]|?]; try done.

(** The first handler's promise rejects with the error the pipeline fails
    with, and fulfils with undefined otherwise. *)
Lemma then_module_failure s :
  (then_module s).1 =
    match module_failure s with
    | Some e => Rejected e
    | None => Fulfilled VUndefined
    end.
Proof. by by_module s. Qed.

Lemma alerts_dropped v : alerts (dropped v) = [].
Proof. unfold dropped. by destruct (resolve v). Qed.

Lemma alerts_then_module s : alerts (then_module s).2 = [].
Proof. by_module s. apply alerts_dropped. Qed.

Lemma alerts_ended o s : alerts (ended o s) = [].
Proof. by destruct s. Qed.

Lemma alerts_catch_error s :
  alerts (catch_error s).2 =
    match s with
    | Rejected e => match to_string e with Some m => [m] | None => [] end
    | Fulfilled _ => []
    end.
Proof. destruct s as [v|e]; [done|]. simpl. by destruct (to_string e). Qed.

Lemma alerts_module_events s : alerts (module_events s) = module_alerts s.
Proof.
  unfold module_events, alerts. rewrite !omap_app. fold (alerts (then_module s).2).
  fold (alerts (catch_error (then_module s).1).2).
  fold (alerts (ended FromImport (catch_error (then_module s).1).1)).
  rewrite alerts_then_module, alerts_ended, alerts_catch_error, then_module_failure,
    app_nil_r.
  unfold module_alerts. by destruct (module_failure s).
Qed.

Lemma alerts_module_events_upto k s :
  alerts (module_events_upto k s) `prefix_of` alerts (module_events s).
Proof.
  destruct k as [|[|[|k]]]; simpl; [apply prefix_nil| | |done];
    unfold module_events, alerts; rewrite ?omap_app.
  - by apply prefix_app_r.
  - rewrite app_assoc. by apply prefix_app_r.
Qed.

Lemma calls_dropped v : calls (dropped v) = [].
Proof. unfold dropped. by destruct (resolve v). Qed.

Lemma calls_module_events s :
  calls (module_events s) =
    match s with
    | Fulfilled (VModule (VFunction src body)) => [(VFunction src body, [])]
    | _ => []
    end.
Proof.
  by_module s; unfold module_events, calls; cbn; unfold dropped;
    repeat match goal with
           | |- context [resolve ?v] => destruct (resolve v)
           | |- context [to_string ?e] => destruct (to_string e)
           end; done.
Qed.

Lemma then_module_module_events s :
  List.filter module_event (then_module s).2 = (then_module s).2.
Proof.
  by_module s. unfold then_module, dropped. cbn.
  by match goal with |- context [resolve ?v] => destruct (resolve v) end.
Qed.

Lemma catch_error_module_events s :
  List.filter module_event (catch_error s).2 = (catch_error s).2.
Proof. destruct s as [v|e]; [done|]. simpl. by destruct (to_string e). Qed.

Lemma ended_import_module_events s :
  List.filter module_event (ended FromImport s) = ended FromImport s.
Proof. by destruct s. Qed.

Lemma module_events_filter k s :
  List.filter module_event (module_events_upto k s) = module_events_upto k s.
Proof.
  destruct k as [|[|[|k]]]; [done| | |]; unfold module_events_upto, module_events;
    rewrite ?List.filter_app, ?then_module_module_events, ?catch_error_module_events,
      ?ended_import_module_events; done.
Qed.

(** The matches of an element do not change, so neither do lookups. *)
Lemma query_alter_class sel token n d :
  query sel (alter (add_class token) n d) = query sel d.
Proof.
  unfold query. f_equal. revert n.
  induction d as [|e d IH]; intros [|n]; try done.
  csimpl. f_equal. apply IH.
Qed.

Lemma query_alter_text sel t n d :
  query sel (alter (set_text t) n d) = query sel d.
Proof.
  unfold query. f_equal. revert n.
  induction d as [|e d IH]; intros [|n]; try done.
  csimpl. f_equal. apply IH.
Qed.

(** ** Every schedule of a page load *)

Lemma step_fragment i b : fragment (step i b) = fragment b.
Proof. unfold step. by destruct (step_jobs i (jobs b) (window b)). Qed.

Lemma step_onhashchange i b : onhashchange (step i b) = onhashchange b.
Proof. unfold step. by destruct (step_jobs i (jobs b) (window b)). Qed.

Lemma run_fragment schedule b : fragment (run schedule b) = fragment b.
Proof.
  revert b. induction schedule as [|i l IH]; intros b; simpl; [done|].
  by rewrite IH, step_fragment.
Qed.

Lemma run_onhashchange schedule b : onhashchange (run schedule b) = onhashchange b.
Proof.
  revert b. induction schedule as [|i l IH]; intros b; simpl; [done|].
  by rewrite IH, step_onhashchange.
Qed.

Lemma run_app l1 l2 b : run (l1 ++ l2) b = run l2 (run l1 b).
Proof. apply foldl_app. Qed.

(** The loop gets to the end of the first chain, and so of all. *)
Lemma run_head o s rs : forall l b,
  jobs b = Chain o s rs :: l ->
  run (repeat 0 (S (length rs))) b =
    Browser (fragment b) (run_chain o s rs (window b)) (onhashchange b) l.
Proof.
  revert s. induction rs as [|r rs IH]; intros s l b Hj.
  - simpl. unfold step, step_jobs. rewrite Hj. done.
  - change (run (repeat 0 (S (length (r :: rs)))) b)
      with (run (repeat 0 (S (length rs))) (step 0 b)).
    assert (jobs (step 0 b) = Chain o (react r s (window b)).1 rs :: l /\
            window (step 0 b) = (react r s (window b)).2) as [Hj' Hw].
    { unfold step, step_jobs. rewrite Hj.
      cbn [lookup list_lookup advance reactions state source].
      by destruct (react r s (window b)). }
    rewrite (IH _ l (step 0 b) Hj'), Hw, step_fragment, step_onhashchange.
    cbn [run_chain]. by destruct (react r s (window b)).
Qed.

Lemma drain_finished b : finished (drain b).
Proof.
  unfold drain, finished. remember (jobs b) as l eqn:Hl. revert b Hl.
  induction l as [|[o s rs] l IH]; intros b Hl; [done|].
  change (work (Chain o s rs :: l)) with (S (length rs) + work l).
  rewrite repeat_app, run_app, (run_head o s rs l b) by done.
  by apply IH.
Qed.

Section PageLoad.

Variables (h : host) (f : option string) (schedule : list nat).

Let ex := selector f.
Let b := run schedule (load h f).

(** The module pipeline, whatever else is pending. *)
Lemma module_view_run :
  exists k,
    module_view (window b) =
      EvImport (module_path ex) :: module_events_upto k (import_module h (module_path ex)) /\
    (finished b ->
     module_events_upto k (import_module h (module_path ex)) =
       module_events (import_module h (module_path ex))).
Proof.
  subst b ex. rewrite load_eq.
  destruct (query (anchor_selector (selector f)) (served_document h)) as [n|];
    match goal with
    | |- context [run schedule (Browser ?fr ?p ?o (?c :: ?rest))] =>
        destruct (isolation module_view [] c rest (Browser fr p o (c :: rest)) schedule)
          as (k & Hv & Hk);
          [done | apply Forall_nil_2
          | repeat first [apply Forall_nil_2 | apply Forall_cons_2
                         | apply source_chain_quiet]
          | apply module_chain_determined | apply module_view_finish |]
    end;
    exists k; rewrite Hv; cbn [window] in *; rewrite alone_module_chain in *;
    cbn [fst snd] in *; rewrite module_view_log, module_events_filter;
    (split; [done|]); intros Hfin; specialize (Hk Hfin);
    by destruct k as [|[|[|k]]].
Qed.

(** The page and the source display while the anchor was found. *)
Lemma page_view_run n :
  query (anchor_selector ex) (served_document h) = Some n ->
  exists k,
    page_view (window b) = page_view (alone k (source_chain h ex) (window (load h f))).2 /\
    (finished b -> 3 <= k).
Proof.
  intros Hq. subst b. rewrite load_eq. subst ex. rewrite Hq.
  match goal with
  | |- context [run schedule (Browser ?fr ?p ?o [?m; ?c])] =>
      destruct (isolation page_view [m] c [] (Browser fr p o [m; c]) schedule)
        as (k & Hv & Hk);
        [done | repeat first [apply Forall_nil_2 | apply Forall_cons_2
                             | apply module_chain_quiet]
        | apply Forall_nil_2
        | apply source_chain_determined | apply page_view_finish |]
  end.
  exists k. split; [done|]. intros Hfin. specialize (Hk Hfin).
  rewrite alone_source_chain in Hk. destruct k as [|[|[|k]]]; try done. lia.
Qed.

(** The page when the anchor was not found: nothing pending touches it. *)
Lemma page_view_run_no_anchor :
  query (anchor_selector ex) (served_document h) = None ->
  page_view (window b) = (served_document h, [EvUncaught (null_read "classList")]).
Proof.
  intros Hq. subst b. rewrite load_eq. subst ex. rewrite Hq.
  match goal with
  | |- context [run schedule ?b0] =>
      destruct (quiet_run page_view schedule b0) as [Hv _];
        [repeat first [apply Forall_nil_2 | apply Forall_cons_2
                      | apply module_chain_quiet] |]
  end.
  by rewrite Hv.
Qed.

End PageLoad.

(** ** What a page load requests *)

Lemma then_text_failed s p e :
  source_failure (dom p) s = Some e ->
  then_text (then_response s) p = (Rejected e, p).
Proof.
  unfold source_failure, then_text.
  destruct (then_response s) as [t|e']; [|by intros [= ->]].
  destruct (query "#code" (dom p)); [|by intros [= <-]].
  destruct (dom_string t); [done|]. by intros [= <-].
Qed.

Lemma then_text_done s p :
  source_failure (dom p) s = None ->
  exists t n txt,
    then_response s = Fulfilled t /\ query "#code" (dom p) = Some n /\
    dom_string t = Some txt /\
    then_text (then_response s) p =
      (Fulfilled VUndefined,
       Page (alter (set_text txt) n (dom p))
            (trace p ++ [EvSetTextContent n txt; EvHighlightAll])
            (reloading p)).
Proof.
  unfold source_failure, then_text.
  destruct (then_response s) as [t|e']; [|done].
  destruct (query "#code" (dom p)) as [n|]; [|done].
  destruct (dom_string t) as [txt|] eqn:Hx; [|done]. intros _. by exists t, n, txt.
Qed.

(** The source display at any of its stages, by whether it fails. *)
Lemma alone_source_page k h ex p :
  match source_failure (dom p) (fetch_resource h (source_path ex)) with
  | Some e =>
      (alone k (source_chain h ex) p).2 =
        if decide (k < 3) then p else log [EvUnhandledRejection FromFetch e] p
  | None =>
      exists t n txt,
        then_response (fetch_resource h (source_path ex)) = Fulfilled t /\
        query "#code" (dom p) = Some n /\
        dom_string t = Some txt /\
        (alone k (source_chain h ex) p).2 =
          if decide (k < 2) then p
          else Page (alter (set_text txt) n (dom p))
                    (trace p ++ [EvSetTextContent n txt; EvHighlightAll])
                    (reloading p)
  end.
Proof.
  rewrite alone_source_chain. cbv zeta.
  destruct (source_failure _ _) as [e|] eqn:Hs.
  - rewrite (then_text_failed _ _ _ Hs). by destruct k as [|[|[|k]]].
  - destruct (then_text_done _ _ Hs) as (t & n & txt & Ht & Hq & Hx & ->).
    exists t, n, txt. repeat split; try done. by destruct k as [|[|[|k]]].
Qed.

Lemma imports_then_module s : imports (then_module s).2 = [].
Proof.
  by_module s. unfold then_module, dropped. cbn.
  by match goal with |- context [resolve ?v] => destruct (resolve v) end.
Qed.

Lemma imports_catch_error s : imports (catch_error s).2 = [].
Proof. destruct s as [v|e]; [done|]. simpl. by destruct (to_string e). Qed.

Lemma imports_ended o s : imports (ended o s) = [].
Proof. by destruct s. Qed.

Lemma imports_module_events_upto k s : imports (module_events_upto k s) = [].
Proof.
  pose proof (imports_then_module s) as H1.
  pose proof (imports_catch_error (then_module s).1) as H2.
  pose proof (imports_ended FromImport (catch_error (then_module s).1).1) as H3.
  unfold imports in *.
  destruct k as [|[|[|k]]]; [done| | |]; unfold module_events_upto, module_events;
    by rewrite ?omap_app, ?H1, ?H2, ?H3.
Qed.

Lemma fetches_alone_source k h ex p :
  fetches (trace (alone k (source_chain h ex) p).2) = fetches (trace p).
Proof.
  pose proof (alone_source_page k h ex p) as H.
  destruct (source_failure _ _) as [e|].
  - rewrite H. case_decide; [done|]. unfold log, fetches. simpl.
    by rewrite omap_app, app_nil_r.
  - destruct H as (t & n & txt & _ & _ & _ & ->). case_decide; [done|].
    unfold fetches. simpl. by rewrite omap_app, app_nil_r.
Qed.

(** One import is requested, of the module of the selector. *)
Lemma imports_run h f schedule :
  imports (trace (window (run schedule (load h f)))) = [module_path (selector f)].
Proof.
  destruct (module_view_run h f schedule) as (k & Hv & _).
  rewrite imports_module_view, Hv. unfold imports.
  change (omap ?g (EvImport ?x :: ?l)) with (x :: omap g l).
  f_equal. apply imports_module_events_upto.
Qed.

(** The source is fetched once if the anchor was found, and not at all
    otherwise. *)
Lemma fetches_run h f schedule :
  fetches (trace (window (run schedule (load h f)))) =
    match query (anchor_selector (selector f)) (served_document h) with
    | Some _ => [source_path (selector f)]
    | None => []
    end.
Proof.
  destruct (query _ _) as [n|] eqn:Hq.
  - destruct (page_view_run h f schedule n Hq) as (k & Hv & _).
    rewrite fetches_page_view, Hv, <- fetches_page_view, fetches_alone_source.
    by rewrite load_eq, Hq.
  - by rewrite fetches_page_view, (page_view_run_no_anchor h f schedule Hq).
Qed.

(** ** The selector *)

Lemma selector_eq f :
  selector f =
    match f with
    | Some (String c s) => String c s
    | _ => "cells"
    end.
Proof. by destruct f as [[|c s]|]. Qed.

(** C9: resolving the selector is a total function of the URL fragment: it
    gives the fragment itself when that is not empty and "cells" when it is
    empty or absent, so never the empty string, and the script reads it
    without an exception. *)
Theorem resolve_selector_total (f : option string) :
  selector f = resolve_selector (default EmptyString f) /\
  selector f <> EmptyString /\
  (forall s, f = Some s -> s <> EmptyString -> selector f = s) /\
  (forall b, get_hash b = (Normal (location_hash (fragment b)), b)).
Proof.
  rewrite selector_eq.
  destruct f as [[|c s]|]; repeat split; try done; intros s' [= <-]; done.
Qed.

(** C1: with no fragment, or an empty one, the selector is "cells": the
    module requested is ./wasm/examples/cells.js, and the source requested,
    once the active link has been marked, is ./sources/cells.rs. *)
Theorem default_selector_paths (h : host) (f : option string) (schedule : list nat) :
  f = None \/ f = Some EmptyString ->
  let t := trace (window (run schedule (load h f))) in
  selector f = "cells" /\
  module_path (selector f) = "./wasm/examples/cells.js" /\
  source_path (selector f) = "./sources/cells.rs" /\
  imports t = ["./wasm/examples/cells.js"] /\
  fetches t =
    match query (anchor_selector "cells") (served_document h) with
    | Some _ => ["./sources/cells.rs"]
    | None => []
    end.
Proof.
  intros Hf t. subst t. rewrite imports_run, fetches_run.
  by destruct Hf as [-> | ->].
Qed.

(** C2: a fragment that is not empty is the selector as it stands: the
    module path is "./wasm/examples/" + s + ".js" and the source path is
    "./sources/" + s + ".rs", with nothing encoded or checked. *)
Theorem selector_passthrough (h : host) (s : string) (schedule : list nat) :
  s <> EmptyString ->
  let t := trace (window (run schedule (load h (Some s)))) in
  selector (Some s) = s /\
  module_path (selector (Some s)) = "./wasm/examples/" +:+ s +:+ ".js" /\
  source_path (selector (Some s)) = "./sources/" +:+ s +:+ ".rs" /\
  imports t = ["./wasm/examples/" +:+ s +:+ ".js"] /\
  fetches t =
    match query (anchor_selector s) (served_document h) with
    | Some _ => ["./sources/" +:+ s +:+ ".rs"]
    | None => []
    end.
Proof.
  intros Hs t. subst t. rewrite imports_run, fetches_run.
  assert (selector (Some s) = s) as -> by (rewrite selector_eq; by destruct s).
  done.
Qed.

(** ** The module pipeline *)

Lemma append_empty_r s : s +:+ EmptyString = s.
Proof. induction s as [|c s IH]; [done|]. change (String c (s +:+ EmptyString) = String c s). by f_equal. Qed.

Lemma contains_refl s : contains s s.
Proof.
  exists EmptyString, EmptyString. change (s = s +:+ EmptyString).
  by rewrite append_empty_r.
Qed.

Lemma catch_error_state s :
  (catch_error s).1 =
    match s with
    | Rejected e =>
        match to_string e with
        | Some _ => Fulfilled VUndefined
        | None => Rejected cannot_convert
        end
    | Fulfilled v => Fulfilled v
    end.
Proof. destruct s as [v|e]; [done|]. simpl. by destruct (to_string e). Qed.

Lemma unhandled_import_module_events s :
  unhandled_of FromImport (module_events s) = left_by_catch s.
Proof.
  unfold module_events, unhandled_of, left_by_catch. rewrite !omap_app.
  rewrite catch_error_state, then_module_failure.
  assert (omap (fun e => match e, FromImport with
                         | EvUnhandledRejection FromImport v, FromImport
                         | EvUnhandledRejection FromFetch v, FromFetch
                         | EvUnhandledRejection FromCall v, FromCall => Some v
                         | _, _ => None
                         end) (then_module s).2 = []) as ->.
  { by_module s. unfold then_module, dropped. cbn.
    by match goal with |- context [resolve ?v] => destruct (resolve v) end. }
  destruct (module_failure s) as [e|]; [|done]. cbn.
  by destruct (to_string e).
Qed.


Lemma alerts_run h f schedule :
  alerts (trace (window (run schedule (load h f))))
    `prefix_of` module_alerts (import_module h (module_path (selector f))).
Proof.
  destruct (module_view_run h f schedule) as (k & Hv & _).
  rewrite alerts_module_view, Hv.
  rewrite <- alerts_module_events. apply alerts_module_events_upto.
Qed.

Lemma alerts_run_finished h f schedule :
  finished (run schedule (load h f)) ->
  alerts (trace (window (run schedule (load h f)))) =
    module_alerts (import_module h (module_path (selector f))).
Proof.
  intros Hfin. destruct (module_view_run h f schedule) as (k & Hv & Hk).
  rewrite alerts_module_view, Hv, (Hk Hfin). apply alerts_module_events.
Qed.

Lemma calls_run_finished h f schedule :
  finished (run schedule (load h f)) ->
  calls (trace (window (run schedule (load h f)))) =
    calls (module_events (import_module h (module_path (selector f)))).
Proof.
  intros Hfin. destruct (module_view_run h f schedule) as (k & Hv & Hk).
  by rewrite calls_module_view, Hv, (Hk Hfin).
Qed.

(** C3, as the code has it: once the page has settled, an alert has been
    shown exactly when the module pipeline failed with an error E that has a
    string conversion (the import rejected with E, or the call of the
    default export threw E); then there is one alert, and its message
    contains the string E converts to.  When E has no string conversion,
    [window.alert] throws: nothing is shown, and the rejection of the catch
    handler's promise is left unhandled.  When the module loads and its
    default export returns, there is no alert.  At no earlier moment, under
    no schedule, is anything shown beyond that, and the page does settle. *)
Theorem alert_iff_module_failure (h : host) (f : option string) (schedule : list nat) :
  finished (run schedule (load h f)) ->
  let t := trace (window (run schedule (load h f))) in
  let shown := alerts t in
  let s := import_module h (module_path (selector f)) in
  (shown <> [] <-> exists E msg, module_failure s = Some E /\ to_string E = Some msg) /\
  (forall E msg, module_failure s = Some E -> to_string E = Some msg ->
     exists m, shown = [m] /\ contains m msg) /\
  (forall E, module_failure s = Some E -> to_string E = None ->
     shown = [] /\ unhandled_of FromImport t = [cannot_convert]) /\
  (module_failure s = None -> shown = []) /\
  (forall earlier, alerts (trace (window (run earlier (load h f)))) `prefix_of` shown) /\
  (forall E, s = Rejected E -> module_failure s = Some E) /\
  (forall src E, s = Fulfilled (VModule (VFunction src (Throws E))) ->
     module_failure s = Some E) /\
  (forall src v, s = Fulfilled (VModule (VFunction src (Returns v))) ->
     module_failure s = None) /\
  finished (drain (load h f)).
Proof.
  intros Hfin t shown s. subst shown t.
  rewrite (alerts_run_finished h f schedule Hfin).
  assert (unhandled_of FromImport (trace (window (run schedule (load h f)))) =
          left_by_catch s) as Hun.
  { destruct (module_view_run h f schedule) as (k & Hv & Hk).
    rewrite unhandled_of_import_view, Hv, (Hk Hfin). apply unhandled_import_module_events. }
  rewrite Hun. fold s. unfold module_alerts, left_by_catch.
  split; [|split; [|split; [|split; [|split; [|split; [|split; [|split]]]]]]].
  - split.
    + destruct (module_failure s) as [E|]; [|done].
      destruct (to_string E) as [m|] eqn:Hm; [|done]. intros _. by exists E, m.
    + intros (E & m & -> & ->). done.
  - intros E msg -> ->. exists msg. split; [done | apply contains_refl].
  - by intros E -> ->.
  - by intros ->.
  - intros earlier. apply alerts_run.
  - by intros E ->.
  - by intros src E ->.
  - by intros src v ->.
  - apply drain_finished.
Qed.

(** C6: when the module has loaded, its default export is called once, with
    no argument.  Whatever it returns is dropped: the handler's promise
    fulfils with undefined, so a promise returned by the default export that
    rejects later reaches no catch handler and leads to no alert. *)
Theorem default_export_called_once (h : host) (f : option string) (schedule : list nat)
    (src : string) (body : behaviour) :
  import_module h (module_path (selector f)) = Fulfilled (VModule (VFunction src body)) ->
  finished (run schedule (load h f)) ->
  let t := trace (window (run schedule (load h f))) in
  calls t = [(VFunction src body, [])] /\
  (forall v, body = Returns v ->
     alerts t = [] /\
     forall p, (react (OnFulfilled on_module) (Fulfilled (VModule (VFunction src body))) p).1
               = Fulfilled VUndefined) /\
  (forall e, body = Returns (VPromise (Rejected e)) -> alerts t = []) /\
  finished (drain (load h f)).
Proof.
  intros Hs Hfin t. subst t.
  rewrite (calls_run_finished h f schedule Hfin), (alerts_run_finished h f schedule Hfin).
  rewrite Hs, calls_module_events. split; [done|]. split.
  - intros v ->. split; [done|]. intros p. by rewrite react_on_module.
  - split; [by intros e ->|]. apply drain_finished.
Qed.

(** ** The missing anchor *)

(** C10: when no anchor matches, marking the active link throws on the null
    it reads [classList] of; the statements after it do not run, so the
    source is never fetched and the display element never written, while
    the import requested before goes its way. *)
Theorem missing_anchor_stops_script (h : host) (f : option string) (schedule : list nat) :
  query (anchor_selector (selector f)) (served_document h) = None ->
  let b := run schedule (load h f) in
  uncaught (trace (window b)) = [null_read "classList"] /\
  fetches (trace (window b)) = [] /\
  text_writes (trace (window b)) = [] /\
  dom (window b) = served_document h /\
  jobs (load h f) = [module_chain h (selector f)] /\
  imports (trace (window b)) = [module_path (selector f)] /\
  (finished b ->
   module_view (window b) =
     EvImport (module_path (selector f))
       :: module_events (import_module h (module_path (selector f)))) /\
  finished (drain (load h f)).
Proof.
  intros Hq b. subst b.
  pose proof (page_view_run_no_anchor h f schedule Hq) as Hv.
  rewrite uncaught_page_view, fetches_page_view, text_writes_page_view, Hv.
  repeat split; try done.
  - unfold page_view in Hv. by injection Hv.
  - by rewrite load_eq, Hq.
  - apply imports_run.
  - intros Hfin. destruct (module_view_run h f schedule) as (k & Hm & Hk).
    by rewrite Hm, (Hk Hfin).
  - apply drain_finished.
Qed.

(** C4, as the code has it: when no anchor matches, marking the active link
    changes no element, but it is not silent: it throws a TypeError, the
    script ends there and the [hashchange] handler is never set. *)
Theorem missing_anchor_marks_nothing (h : host) (f : option string) (schedule : list nat) :
  query (anchor_selector (selector f)) (served_document h) = None ->
  let b := run schedule (load h f) in
  class_writes (trace (window b)) = [] /\
  dom (window b) = served_document h /\
  uncaught (trace (window b)) = [null_read "classList"] /\
  onhashchange b = None.
Proof.
  intros Hq b. subst b.
  pose proof (page_view_run_no_anchor h f schedule Hq) as Hv.
  rewrite uncaught_page_view, class_writes_page_view, Hv.
  repeat split; try done.
  - unfold page_view in Hv. by injection Hv.
  - by rewrite run_onhashchange, load_eq, Hq.
Qed.

(** ** The source display *)

Lemma text_alter_class token n (d : list element) :
  textContent <$> alter (add_class token) n d = textContent <$> d.
Proof.
  revert n. induction d as [|e d IH]; intros [|n]; try done.
  csimpl. f_equal. apply IH.
Qed.

Lemma unhandled_of_elem o r t : r ∈ unhandled_of o t -> r ∈ unhandled t.
Proof.
  unfold unhandled_of, unhandled. rewrite !list_elem_of_omap.
  intros (e & He & Hr). exists e. split; [done|].
  destruct e; try done. by destruct promise, o.
Qed.

Lemma source_failure_alter_class token n (d : list element) s :
  source_failure (alter (add_class token) n d) s = source_failure d s.
Proof. unfold source_failure. by rewrite query_alter_class. Qed.

(** C5: a failure of the source display (the fetch rejects, reading the
    body fails, or the display element is missing) meets no catch handler:
    the rejection ends up unhandled, no alert comes of it, nothing is
    written and every text content stays as the document was served. *)
Theorem source_failure_silent (h : host) (f : option string) (schedule : list nat)
    (n : nat) (e : value) :
  query (anchor_selector (selector f)) (served_document h) = Some n ->
  source_failure (served_document h) (fetch_resource h (source_path (selector f))) = Some e ->
  let b := run schedule (load h f) in
  jobs (load h f) = [module_chain h (selector f); source_chain h (selector f)] /\
  Forall only_then (reactions (source_chain h (selector f))) /\
  (forall msg, msg ∈ alerts (trace (window b)) ->
     exists E, module_failure (import_module h (module_path (selector f))) = Some E /\
               to_string E = Some msg) /\
  text_writes (trace (window b)) = [] /\
  dom (window b) = dom (window (load h f)) /\
  textContent <$> dom (window b) = textContent <$> served_document h /\
  (finished b ->
   e ∈ unhandled (trace (window b)) /\
   unhandled_of FromFetch (trace (window b)) = [e]) /\
  (forall d e', source_failure d (Rejected e') = Some e') /\
  (forall d e', source_failure d (Fulfilled (VResponse (Rejected e'))) = Some e') /\
  finished (drain (load h f)).
Proof.
  intros Hq Hs b. subst b.
  destruct (page_view_run h f schedule n Hq) as (k & Hv & Hk).
  pose proof (alone_source_page k h (selector f) (window (load h f))) as Hp.
  assert (dom (window (load h f)) = alter (add_class "active") n (served_document h))
    as Hd by (by rewrite load_eq, Hq).
  rewrite Hd, source_failure_alter_class, Hs in Hp. rewrite Hp in Hv.
  assert (page_view (window (load h f)) =
          (alter (add_class "active") n (served_document h),
           [EvClassListAdd n "active"; EvFetch (source_path (selector f))])) as H0
    by (by rewrite load_eq, Hq).
  assert (dom (window (run schedule (load h f))) =
          alter (add_class "active") n (served_document h)) as Hdom.
  { unfold page_view in Hv, H0. injection Hv as -> _.
    case_decide; [by injection H0|]. by rewrite <- Hd. }
  split; [by rewrite load_eq, Hq|]. split; [repeat constructor|]. split.
  { intros msg Hmsg. pose proof (alerts_run h f schedule) as Hpre.
    pose proof (elem_of_prefix _ _ _ Hmsg Hpre) as Hin. unfold module_alerts in Hin.
    destruct (module_failure _) as [E|]; [|by apply elem_of_nil in Hin].
    destruct (to_string E) as [m|] eqn:Hm; [|by apply elem_of_nil in Hin].
    apply list_elem_of_singleton in Hin. exists E. by subst. }
  assert (finished (run schedule (load h f)) ->
          unhandled_of FromFetch (trace (window (run schedule (load h f)))) = [e]) as Hun.
  { intros Hfin. specialize (Hk Hfin). rewrite unhandled_of_page_view, Hv.
    case_decide; [lia|]. by rewrite page_view_log, H0. }
  rewrite text_writes_page_view, Hv, Hdom, Hd.
  split; [|split; [done|split; [apply text_alter_class|split; [|split; [done|split]]]]].
  - case_decide; [by rewrite H0|]. by rewrite page_view_log, H0.
  - intros Hfin. split; [|by apply Hun].
    apply (unhandled_of_elem FromFetch). rewrite (Hun Hfin). by apply list_elem_of_singleton.
  - done.
  - apply drain_finished.
Qed.

Lemma run_source_chain h ex p :
  dom (run_chain (source (source_chain h ex)) (state (source_chain h ex))
                 (reactions (source_chain h ex)) p) =
    displayed (dom p) (fetch_resource h (source_path ex)).
Proof.
  unfold source_chain, displayed. chain_steps. cbn [run_chain].
  unfold then_text. destruct (then_response _) as [t|e]; [|done].
  destruct (query "#code" (dom p)); [|done]. by destruct (dom_string t).
Qed.

Lemma displayed_twice d s : displayed (displayed d s) s = displayed d s.
Proof.
  unfold displayed. destruct (then_response s) as [t|e]; [|done].
  destruct (query "#code" d) as [n|] eqn:Hq; [|by rewrite Hq].
  destruct (dom_string t) as [txt|]; [|by rewrite Hq].
  rewrite query_alter_text, Hq, list_alter_alter_eq.
  by apply list_alter_ext.
Qed.

Lemma first_match_lt hits n : first_match hits = Some n -> n < length hits.
Proof.
  revert n. induction hits as [|[] hits IH]; intros n; simpl; [done| |].
  - intros [= <-]. lia.
  - destruct (first_match hits) as [m|]; [|done]. intros [= <-].
    specialize (IH m eq_refl). lia.
Qed.

Lemma query_lt sel d n : query sel d = Some n -> n < length d.
Proof.
  intros H. apply first_match_lt in H. by rewrite length_fmap in H.
Qed.

Lemma source_pipeline_eq h ex b :
  (source_pipeline h ex b).2 =
    Browser (fragment b) (log [EvFetch (source_path ex)] (window b)) (onhashchange b)
            (jobs b ++ [source_chain h ex]).
Proof. reflexivity. Qed.

Lemma display_source_eq h ex b :
  finished b ->
  display_source h ex b =
    Browser (fragment b)
      (run_chain (source (source_chain h ex)) (state (source_chain h ex))
                 (reactions (source_chain h ex))
                 (log [EvFetch (source_path ex)] (window b)))
      (onhashchange b) [].
Proof.
  intros Hfin. unfold finished in Hfin.
  unfold display_source, drain. rewrite source_pipeline_eq, Hfin.
  cbn [jobs]. unfold source_chain.
  change (work ([] ++ [Chain ?o ?s ?rs])) with (S (length rs)).
  by rewrite (run_head FromFetch (fetch_resource h (source_path ex))
                [OnFulfilled on_response; OnFulfilled on_text] []).
Qed.

(** C7: the source display run twice on the same selector, with the same
    answer to the fetch, leaves the document, and so the text of the
    display element, as one run leaves it. *)
Theorem display_idempotent (h : host) (ex : string) (b : browser) :
  finished b ->
  dom (window (display_source h ex (display_source h ex b))) =
    dom (window (display_source h ex b)) /\
  code_text (display_source h ex (display_source h ex b)) =
    code_text (display_source h ex b) /\
  (forall t n,
     fetch_resource h (source_path ex) = Fulfilled (VResponse (Fulfilled (VString t))) ->
     query "#code" (dom (window b)) = Some n ->
     code_text (display_source h ex b) = Some t).
Proof.
  intros Hfin.
  assert (finished (display_source h ex b)) as Hfin'
    by (by rewrite display_source_eq).
  assert (dom (window (display_source h ex (display_source h ex b))) =
          dom (window (display_source h ex b))) as Hdom.
  { rewrite (display_source_eq h ex (display_source h ex b) Hfin').
    rewrite (display_source_eq h ex b Hfin). cbn [window].
    repeat (rewrite run_source_chain; cbn [dom log]). apply displayed_twice. }
  split; [done|]. split.
  - unfold code_text. by rewrite Hdom.
  - intros t n Ht Hq. unfold code_text.
    rewrite (display_source_eq h ex b Hfin). cbn [window].
    rewrite run_source_chain. cbn [dom log]. unfold displayed.
    rewrite Ht. cbn [then_response resolve dom_string to_string].
    rewrite Hq, query_alter_text, Hq.
    rewrite list_lookup_alter_eq.
    destruct (lookup_lt_is_Some_2 _ _ (query_lt _ _ _ Hq)) as [el ->]. done.
Qed.

(** ** Navigation *)

(** The handler is set exactly when the script got to its last statement. *)
Lemma handler_installed h f schedule :
  onhashchange (run schedule (load h f)) =
    match query (anchor_selector (selector f)) (served_document h) with
    | Some _ => Some on_hashchange
    | None => None
    end.
Proof. rewrite run_onhashchange, load_eq. by destruct (query _ _). Qed.

(** C8, as the code has it: the [hashchange] handler, which the script sets
    as its last statement, asks for a reload whatever event it is given.  On
    a page that has the handler set, a change of fragment loads the page
    afresh; the script then resolves the selector from the new fragment and
    requests the module for it, and the source for it when the new selector
    has an anchor.  On a page where the script stopped at the missing
    anchor, no handler is set and a change to another fragment reloads
    nothing. *)
Theorem hashchange_reloads (h : host) (f' : option string) (b : browser)
    (schedule : list nat) :
  onhashchange b = Some on_hashchange ->
  f' <> fragment b ->
  (forall ev p, on_hashchange ev p =
                (Normal VUndefined, Page (dom p) (trace p ++ [EvReload]) true)) /\
  (forall f0 n, query (anchor_selector (selector f0)) (served_document h) = Some n ->
     forall schedule0, onhashchange (run schedule0 (load h f0)) = Some on_hashchange) /\
  navigate h f' b = load h f' /\
  selector f' = resolve_selector (default EmptyString f') /\
  fragment (run schedule (navigate h f' b)) = f' /\
  imports (trace (window (run schedule (navigate h f' b)))) = [module_path (selector f')] /\
  fetches (trace (window (run schedule (navigate h f' b)))) =
    match query (anchor_selector (selector f')) (served_document h) with
    | Some _ => [source_path (selector f')]
    | None => []
    end /\
  (forall f0 s0 schedule0,
     query (anchor_selector (selector f0)) (served_document h) = None ->
     Some s0 <> f0 ->
     navigate h (Some s0) (run schedule0 (load h f0)) =
       Browser (Some s0) (window (run schedule0 (load h f0))) None
               (jobs (run schedule0 (load h f0)))).
Proof.
  intros Hh Hf.
  assert (navigate h f' b = load h f') as Hnav.
  { unfold navigate. destruct f' as [s'|]; [|done].
    rewrite bool_decide_eq_false_2 by done. by rewrite Hh. }
  rewrite Hnav, run_fragment, imports_run, fetches_run.
  split; [done|]. split.
  { intros f0 n Hq schedule0. by rewrite handler_installed, Hq. }
  split; [done|]. split; [rewrite selector_eq; by destruct f' as [[|c s]|]|].
  split; [rewrite load_eq; by destruct (query _ _)|].
  split; [done|]. split; [done|].
  intros f0 s0 schedule0 Hq Hne. unfold navigate.
  rewrite handler_installed, Hq, run_fragment.
  assert (fragment (load h f0) = f0) as -> by (by rewrite load_eq, Hq).
  by rewrite bool_decide_eq_false_2.
Qed.

(** ** The sample site *)

Example sample_cells :
  let b := drain (load sample None) in
  trace (window b) =
    [EvImport "./wasm/examples/cells.js"; EvClassListAdd 0 "active";
     EvFetch "./sources/cells.rs";
     EvCall (VFunction "async function init() {}"
                       (Returns (VPromise (Rejected (VString "late"))))) [];
     EvUnhandledRejection FromCall (VString "late");
     EvSetTextContent 2 "fn main() {}"; EvHighlightAll] /\
  code_text b = Some "fn main() {}".
Proof. by vm_compute. Qed.

Example sample_foo :
  trace (window (drain (load sample (Some "foo")))) =
    [EvImport "./wasm/examples/foo.js"; EvClassListAdd 1 "active";
     EvFetch "./sources/foo.rs";
     EvAlert "TypeError: Failed to fetch dynamically imported module";
     EvUnhandledRejection FromFetch (VError "TypeError" "Failed to fetch")].
Proof. by vm_compute. Qed.

Example sample_nope :
  trace (window (drain (load sample (Some "nope")))) =
    [EvImport "./wasm/examples/nope.js";
     EvUncaught (VError "TypeError" "Cannot read properties of null (reading 'classList')");
     EvAlert "TypeError: Failed to fetch dynamically imported module"].
Proof. by vm_compute. Qed.

Example thrower_cells :
  trace (window (drain (load thrower None))) =
    [EvImport "./wasm/examples/cells.js"; EvClassListAdd 0 "active";
     EvFetch "./sources/cells.rs";
     EvUnhandledRejection FromImport cannot_convert;
     EvSetTextContent 1 "fn main() {}"; EvHighlightAll].
Proof. by vm_compute. Qed.

(** On the sample site at #nope the marking step throws and ends the
    script. *)
Lemma marking_not_silent : ~ marking_is_silent sample (Some "nope").
Proof. intros H. destruct H as [H _]; [by vm_compute|]. vm_compute in H. done. Qed.

(** Where the import rejects with a module namespace object, the settled
    page has shown no alert: [window.alert] threw on converting it. *)
Lemma alert_missing : ~ alerts_every_failure thrower None [0; 0; 0; 0; 0; 0; 0].
Proof.
  intros H. destruct (H eq_refl (VModule VUndefined) eq_refl) as [msg Hm].
  vm_compute in Hm. discriminate.
Qed.

(** The sample site loaded at #nope has no handler set: the change to #foo
    reloads nothing, and the module of "foo" is never requested. *)
Lemma hashchange_not_reloading : ~ reloads_and_reruns sample (Some "nope") (Some "foo") [].
Proof.
  intros H. destruct H as (_ & Hi & _); [discriminate|].
  vm_compute in Hi. discriminate.
Qed.

Lemma default_selector_paths_witness :
  (@None string = None \/ @None string = Some EmptyString) /\
  imports (trace (window (run [0; 1; 0] (load sample None)))) = ["./wasm/examples/cells.js"] /\
  fetches (trace (window (run [0; 1; 0] (load sample None)))) = ["./sources/cells.rs"].
Proof.
  split; [by left|].
  destruct (default_selector_paths sample None [0; 1; 0] (or_introl eq_refl))
    as (_ & _ & _ & Hi & Hf).
  split; [exact Hi | exact Hf].
Defined.

Lemma selector_passthrough_witness :
  "foo" <> EmptyString /\
  imports (trace (window (run [1; 0] (load sample (Some "foo"))))) = ["./wasm/examples/foo.js"] /\
  fetches (trace (window (run [1; 0] (load sample (Some "foo"))))) = ["./sources/foo.rs"].
Proof.
  assert ("foo" <> EmptyString) as Hne by discriminate.
  split; [exact Hne|].
  destruct (selector_passthrough sample "foo" [1; 0] Hne) as (_ & _ & _ & Hi & Hf).
  split; [exact Hi | exact Hf].
Defined.

Lemma alert_iff_module_failure_witness :
  finished (run [1; 0; 1; 0; 1; 0; 0] (load sample (Some "foo"))) /\
  exists msg,
    alerts (trace (window (run [1; 0; 1; 0; 1; 0; 0] (load sample (Some "foo"))))) = [msg] /\
    contains msg "TypeError: Failed to fetch dynamically imported module".
Proof.
  assert (finished (run [1; 0; 1; 0; 1; 0; 0] (load sample (Some "foo")))) as Hfin
    by reflexivity.
  split; [exact Hfin|].
  destruct (alert_iff_module_failure sample (Some "foo") [1; 0; 1; 0; 1; 0; 0] Hfin)
    as (_ & H & _).
  exact (H (VError "TypeError" "Failed to fetch dynamically imported module") _
           eq_refl eq_refl).
Defined.

Lemma default_export_called_once_witness :
  finished (run [0; 0; 0; 0; 0; 0; 0] (load sample None)) /\
  length (calls (trace (window (run [0; 0; 0; 0; 0; 0; 0] (load sample None))))) = 1 /\
  alerts (trace (window (run [0; 0; 0; 0; 0; 0; 0] (load sample None)))) = [].
Proof.
  assert (finished (run [0; 0; 0; 0; 0; 0; 0] (load sample None))) as Hfin by reflexivity.
  split; [exact Hfin|].
  destruct (default_export_called_once sample None [0; 0; 0; 0; 0; 0; 0]
              "async function init() {}" (Returns (VPromise (Rejected (VString "late"))))
              eq_refl Hfin) as (Hc & _ & Ha & _).
  split.
  - rewrite Hc. reflexivity.
  - exact (Ha (VString "late") eq_refl).
Defined.

Lemma missing_anchor_stops_script_witness :
  query (anchor_selector (selector (Some "nope"))) (served_document sample) = None /\
  fetches (trace (window (run [0; 0; 0] (load sample (Some "nope"))))) = [] /\
  imports (trace (window (run [0; 0; 0] (load sample (Some "nope"))))) =
    ["./wasm/examples/nope.js"].
Proof.
  assert (query (anchor_selector (selector (Some "nope"))) (served_document sample) = None)
    as Hq by reflexivity.
  split; [exact Hq|].
  destruct (missing_anchor_stops_script sample (Some "nope") [0; 0; 0] Hq)
    as (_ & Hf & _ & _ & _ & Hi & _).
  split; [exact Hf | exact Hi].
Defined.

Lemma missing_anchor_marks_nothing_witness :
  query (anchor_selector (selector (Some "nope"))) (served_document sample) = None /\
  class_writes (trace (window (run [0] (load sample (Some "nope"))))) = [] /\
  onhashchange (run [0] (load sample (Some "nope"))) = None.
Proof.
  assert (query (anchor_selector (selector (Some "nope"))) (served_document sample) = None)
    as Hq by reflexivity.
  split; [exact Hq|].
  destruct (missing_anchor_marks_nothing sample (Some "nope") [0] Hq) as (Hc & _ & _ & Hh).
  split; [exact Hc | exact Hh].
Defined.

Lemma source_failure_silent_witness :
  query (anchor_selector (selector (Some "foo"))) (served_document sample) = Some 1 /\
  source_failure (served_document sample)
    (fetch_resource sample (source_path (selector (Some "foo")))) =
    Some (VError "TypeError" "Failed to fetch") /\
  text_writes (trace (window (run [1; 1; 0; 1] (load sample (Some "foo"))))) = [] /\
  textContent <$> dom (window (run [1; 1; 0; 1] (load sample (Some "foo")))) =
    textContent <$> served_document sample.
Proof.
  assert (query (anchor_selector (selector (Some "foo"))) (served_document sample) = Some 1)
    as Hq by reflexivity.
  assert (source_failure (served_document sample)
            (fetch_resource sample (source_path (selector (Some "foo")))) =
          Some (VError "TypeError" "Failed to fetch")) as Hs by reflexivity.
  split; [exact Hq|]. split; [exact Hs|].
  destruct (source_failure_silent sample (Some "foo") [1; 1; 0; 1] 1 _ Hq Hs)
    as (_ & _ & _ & Hw & _ & Ht & _).
  split; [exact Hw | exact Ht].
Defined.

Lemma display_idempotent_witness :
  finished (drain (load sample None)) /\
  code_text (display_source sample "cells"
               (display_source sample "cells" (drain (load sample None)))) =
    code_text (display_source sample "cells" (drain (load sample None))).
Proof.
  split; [apply drain_finished|].
  exact (proj1 (proj2 (display_idempotent sample "cells" (drain (load sample None))
                         (drain_finished _)))).
Defined.

Lemma hashchange_reloads_witness :
  onhashchange (drain (load sample None)) = Some on_hashchange /\
  Some "foo" <> fragment (drain (load sample None)) /\
  navigate sample (Some "foo") (drain (load sample None)) = load sample (Some "foo").
Proof.
  assert (onhashchange (drain (load sample None)) = Some on_hashchange) as Hh
    by reflexivity.
  assert (Some "foo" <> fragment (drain (load sample None))) as Hf by discriminate.
  split; [exact Hh|]. split; [exact Hf|].
  exact (proj1 (proj2 (proj2 (hashchange_reloads sample (Some "foo")
                                (drain (load sample None)) [] Hh Hf)))).
Defined.

(** * Further properties of the script *)

(** ** The document on the way *)

Lemma dom_then_text s p :
  dom (then_text (then_response s) p).2 = displayed (dom p) s.
Proof.
  unfold then_text, displayed. destruct (then_response s) as [t|e]; [|done].
  destruct (query "#code" (dom p)); [|done]. by destruct (dom_string t).
Qed.

Lemma dom_finish o s p : dom (finish o s p) = dom p.
Proof. by destruct s. Qed.

Lemma dom_alone_source k h ex p :
  dom (alone k (source_chain h ex) p).2 =
    if decide (k < 2) then dom p
    else displayed (dom p) (fetch_resource h (source_path ex)).
Proof.
  rewrite alone_source_chain. cbv zeta.
  destruct k as [|[|[|k]]]; cbn [snd]; rewrite ?dom_finish, ?dom_then_text;
    by case_decide; try lia.
Qed.

Lemma dom_load h f : dom (window (load h f)) = marked h f.
Proof. rewrite load_eq. unfold marked. by destruct (query _ _). Qed.

(** At any moment the document is the marked one, or the marked one with
    the source displayed; once settled, with the anchor found, the latter. *)
Lemma dom_run h f schedule :
  let d := dom (window (run schedule (load h f))) in
  let shown := displayed (marked h f) (fetch_resource h (source_path (selector f))) in
  (d = marked h f \/
   (is_Some (query (anchor_selector (selector f)) (served_document h)) /\ d = shown)) /\
  (finished (run schedule (load h f)) ->
   is_Some (query (anchor_selector (selector f)) (served_document h)) -> d = shown).
Proof.
  cbv zeta. destruct (query (anchor_selector (selector f)) (served_document h))
    as [n|] eqn:Hq.
  - destruct (page_view_run h f schedule n Hq) as (k & Hv & Hk).
    assert (dom (window (run schedule (load h f))) =
            dom (alone k (source_chain h (selector f)) (window (load h f))).2) as ->
      by (unfold page_view in Hv; by injection Hv).
    rewrite dom_alone_source, dom_load. split.
    + case_decide; [by left|]. right. by split.
    + intros Hfin _. specialize (Hk Hfin). case_decide; [lia|done].
  - pose proof (page_view_run_no_anchor h f schedule Hq) as Hv.
    unfold page_view in Hv. injection Hv as Hd _. rewrite Hd.
    split; [left; unfold marked; by rewrite Hq|]. intros _ [? [=]].
Qed.

Lemma query_marked sel h f : query sel (marked h f) = query sel (served_document h).
Proof.
  unfold marked. destruct (query (anchor_selector _) _); [|done].
  apply query_alter_class.
Qed.

Lemma length_marked h f : length (marked h f) = length (served_document h).
Proof. unfold marked. destruct (query _ _); [|done]. apply length_alter. Qed.

(** ** The events of the page *)

(** With the anchor found, the events of the page are those of the top
    level followed by those of the source display so far: none, then the
    write and the highlighting pass, or the unhandled rejection. *)
Lemma page_events_run h f schedule n :
  query (anchor_selector (selector f)) (served_document h) = Some n ->
  exists evs,
    List.filter page_event (trace (window (run schedule (load h f)))) =
      [EvClassListAdd n "active"; EvFetch (source_path (selector f))] ++ evs /\
    match source_failure (served_document h) (fetch_resource h (source_path (selector f))) with
    | Some e =>
        (evs = [] \/ evs = [EvUnhandledRejection FromFetch e]) /\
        (finished (run schedule (load h f)) -> evs = [EvUnhandledRejection FromFetch e])
    | None =>
        exists t m txt,
          then_response (fetch_resource h (source_path (selector f))) = Fulfilled t /\
          query "#code" (served_document h) = Some m /\
          dom_string t = Some txt /\
          (evs = [] \/ evs = [EvSetTextContent m txt; EvHighlightAll]) /\
          (finished (run schedule (load h f)) ->
           evs = [EvSetTextContent m txt; EvHighlightAll])
    end.
Proof.
  intros Hq. destruct (page_view_run h f schedule n Hq) as (k & Hv & Hk).
  assert (List.filter page_event (trace (window (run schedule (load h f)))) =
          (page_view (alone k (source_chain h (selector f)) (window (load h f))).2).2)
    as -> by (by rewrite <- Hv).
  pose proof (alone_source_page k h (selector f) (window (load h f))) as Hp.
  assert (List.filter page_event (trace (window (load h f))) =
          [EvClassListAdd n "active"; EvFetch (source_path (selector f))]) as H0
    by (by rewrite load_eq, Hq).
  rewrite dom_load in Hp. unfold source_failure at 1 in Hp.
  rewrite query_marked in Hp. fold (source_failure (served_document h)
    (fetch_resource h (source_path (selector f)))) in Hp.
  destruct (source_failure _ _) as [e|].
  - rewrite Hp. case_decide.
    + exists []. rewrite app_nil_r. split; [done|]. split; [by left|].
      intros Hfin. specialize (Hk Hfin). lia.
    + exists [EvUnhandledRejection FromFetch e].
      rewrite page_view_log. cbn [snd]. unfold page_view. cbn [snd]. rewrite H0.
      split; [done|]. split; [by right|done].
  - destruct Hp as (t & m & txt & Ht & Hm & Hx & ->). rewrite ?query_marked in Hm.
    case_decide.
    + exists []. rewrite app_nil_r. split; [done|]. exists t, m, txt.
      repeat split; try done; [by left|]. intros Hfin. specialize (Hk Hfin). lia.
    + exists [EvSetTextContent m txt; EvHighlightAll].
      unfold page_view. cbn [snd trace]. rewrite List.filter_app, H0.
      split; [done|]. exists t, m, txt. repeat split; try done. by right.
Qed.



(** X3: when the anchor is found, the fetch answers with a body that reads
    as the text [t], and the display element exists, the page settles with
    the text written once, verbatim, into that element and the highlighting
    pass run once, after the write, and with no rejection of the source
    display left unhandled; at no moment is any other text written. *)
Theorem source_displayed (h : host) (f : option string) (schedule : list nat)
    (n m : nat) (t : string) :
  query (anchor_selector (selector f)) (served_document h) = Some n ->
  fetch_resource h (source_path (selector f)) = Fulfilled (VResponse (Fulfilled (VString t))) ->
  query "#code" (served_document h) = Some m ->
  let b := run schedule (load h f) in
  text_writes (trace (window b)) `prefix_of` [(m, t)] /\
  (finished b ->
   List.filter page_event (trace (window b)) =
     [EvClassListAdd n "active"; EvFetch (source_path (selector f));
      EvSetTextContent m t; EvHighlightAll] /\
   code_text b = Some t /\
   unhandled_of FromFetch (trace (window b)) = []) /\
  finished (drain (load h f)).
Proof.
  intros Hq Hf Hc b. subst b.
  destruct (page_events_run h f schedule n Hq) as (evs & Hev & Hcases).
  unfold source_failure in Hcases. rewrite Hf, Hc in Hcases. cbn in Hcases.
  destruct Hcases as (t' & m' & txt & [= <-] & [= <-] & [= <-] & Hany & Hfin).
  split; [|split; [|apply drain_finished]].
  - rewrite text_writes_page_view. unfold page_view. cbn [snd]. rewrite Hev.
    destruct Hany as [-> | ->]; [apply prefix_nil | done].
  - intros Hdone. specialize (Hfin Hdone). subst evs.
    split; [done|]. split.
    + destruct (dom_run h f schedule) as [_ Hd]. unfold code_text.
      rewrite (Hd Hdone) by (by rewrite Hq). unfold displayed.
      rewrite Hf. cbn [then_response resolve dom_string to_string].
      rewrite query_marked, Hc.
      rewrite query_alter_text, query_marked, Hc.
      rewrite list_lookup_alter_eq.
      assert (m < length (marked h f)) as Hm
        by (rewrite length_marked; by apply query_lt in Hc).
      by destruct (lookup_lt_is_Some_2 _ _ Hm) as [el ->].
    + rewrite unhandled_of_page_view. unfold page_view. cbn [snd]. by rewrite Hev.
Qed.

(** ** What reaches the console only *)



(** ** The order of the jobs does not matter *)

Lemma trace_split (t : list event) :
  t ≡ₚ List.filter module_event t ++ List.filter page_event t.
Proof.
  induction t as [|e t IH]; [done|]. cbn [List.filter]. unfold page_event at 1.
  destruct (module_event e); cbn [negb app].
  - by constructor.
  - rewrite <- Permutation_middle. by constructor.
Qed.

Lemma source_settled k h ex p :
  3 <= k -> (alone k (source_chain h ex) p).2 = (alone 3 (source_chain h ex) p).2.
Proof.
  intros Hk. rewrite !alone_source_chain. destruct k as [|[|[|k]]]; try lia. done.
Qed.

(** X4: two schedules that both let the page settle leave the same
    document, the same events of the module pipeline in the same order and
    the same events of the page in the same order: the traces differ by the
    interleaving of the two only. *)
Theorem schedules_agree (h : host) (f : option string) (s1 s2 : list nat) :
  finished (run s1 (load h f)) ->
  finished (run s2 (load h f)) ->
  dom (window (run s1 (load h f))) = dom (window (run s2 (load h f))) /\
  List.filter module_event (trace (window (run s1 (load h f)))) =
    List.filter module_event (trace (window (run s2 (load h f)))) /\
  List.filter page_event (trace (window (run s1 (load h f)))) =
    List.filter page_event (trace (window (run s2 (load h f)))) /\
  trace (window (run s1 (load h f))) ≡ₚ trace (window (run s2 (load h f))) /\
  onhashchange (run s1 (load h f)) = onhashchange (run s2 (load h f)).
Proof.
  intros H1 H2.
  assert (module_view (window (run s1 (load h f))) =
          module_view (window (run s2 (load h f)))) as Hm.
  { destruct (module_view_run h f s1) as (k1 & Hv1 & Hk1).
    destruct (module_view_run h f s2) as (k2 & Hv2 & Hk2).
    by rewrite Hv1, Hv2, (Hk1 H1), (Hk2 H2). }
  assert (page_view (window (run s1 (load h f))) =
          page_view (window (run s2 (load h f)))) as Hp.
  { destruct (query (anchor_selector (selector f)) (served_document h)) as [n|] eqn:Hq.
    - destruct (page_view_run h f s1 n Hq) as (k1 & Hv1 & Hk1).
      destruct (page_view_run h f s2 n Hq) as (k2 & Hv2 & Hk2).
      rewrite Hv1, Hv2, (source_settled k1), (source_settled k2); auto.
    - by rewrite !(page_view_run_no_anchor h f _ Hq). }
  unfold module_view in Hm. unfold page_view in Hp. injection Hp as Hd Hp.
  repeat split; try done.
  - rewrite (trace_split (trace (window (run s1 (load h f))))),
      (trace_split (trace (window (run s2 (load h f))))). by rewrite Hm, Hp.
  - by rewrite !run_onhashchange.
Qed.

(** ** The module pipeline, event by event *)


(** ** Navigating on *)

Lemma navigate_handled h f' b :
  onhashchange b = Some on_hashchange -> f' <> fragment b ->
  navigate h f' b = load h f'.
Proof.
  intros Hh Hf. unfold navigate. destruct f' as [s'|]; [|done].
  rewrite bool_decide_eq_false_2 by done. by rewrite Hh.
Qed.

Lemma navigate_unhandled h s' b :
  onhashchange b = None -> Some s' <> fragment b ->
  navigate h (Some s') b = Browser (Some s') (window b) None (jobs b).
Proof.
  intros Hh Hf. unfold navigate. rewrite bool_decide_eq_false_2 by done. by rewrite Hh.
Qed.

Lemma load_fragment h f : fragment (load h f) = f.
Proof. rewrite load_eq. by destruct (query _ _). Qed.

(** X7: a change to a fragment that has no anchor is the last one the page
    reloads for: the script, run again, stops before it sets the
    [hashchange] handler, so the next change to a fragment reloads nothing,
    requests nothing, and leaves on screen the page of the fragment without
    anchor. *)
Theorem stale_after_missing_anchor (h : host) (f1 : option string) (s2 : string)
    (b : browser) (schedule : list nat) :
  onhashchange b = Some on_hashchange ->
  f1 <> fragment b ->
  query (anchor_selector (selector f1)) (served_document h) = None ->
  Some s2 <> f1 ->
  let b1 := run schedule (navigate h f1 b) in
  let b2 := navigate h (Some s2) b1 in
  fragment b2 = Some s2 /\
  window b2 = window b1 /\
  jobs b2 = jobs b1 /\
  onhashchange b2 = None /\
  imports (trace (window b2)) = [module_path (selector f1)] /\
  fetches (trace (window b2)) = [].
Proof.
  intros Hh Hf1 Hq Hf2 b1 b2. subst b2 b1.
  rewrite (navigate_handled h f1 b Hh Hf1).
  rewrite navigate_unhandled.
  - cbn [fragment window jobs onhashchange].
    rewrite imports_run, fetches_run, Hq. done.
  - by rewrite handler_installed, Hq.
  - by rewrite run_fragment, load_fragment.
Qed.


(** ** The sample site, again *)


Lemma source_displayed_witness :
  query (anchor_selector (selector None)) (served_document sample) = Some 0 /\
  fetch_resource sample (source_path (selector None)) =
    Fulfilled (VResponse (Fulfilled (VString "fn main() {}"))) /\
  query "#code" (served_document sample) = Some 2 /\
  text_writes (trace (window (run [1; 1; 0; 1] (load sample None))))
    `prefix_of` [(2, "fn main() {}")].
Proof.
  assert (query (anchor_selector (selector None)) (served_document sample) = Some 0)
    as Hq by reflexivity.
  assert (fetch_resource sample (source_path (selector None)) =
          Fulfilled (VResponse (Fulfilled (VString "fn main() {}")))) as Hf by reflexivity.
  assert (query "#code" (served_document sample) = Some 2) as Hc by reflexivity.
  split; [exact Hq|]. split; [exact Hf|]. split; [exact Hc|].
  exact (proj1 (source_displayed sample None [1; 1; 0; 1] 0 2 "fn main() {}" Hq Hf Hc)).
Defined.

Lemma schedules_agree_witness :
  finished (run [0; 0; 0; 0; 0; 0; 0] (load sample None)) /\
  finished (run [1; 0; 1; 0; 1; 0; 0] (load sample None)) /\
  dom (window (run [0; 0; 0; 0; 0; 0; 0] (load sample None))) =
    dom (window (run [1; 0; 1; 0; 1; 0; 0] (load sample None))).
Proof.
  assert (finished (run [0; 0; 0; 0; 0; 0; 0] (load sample None))) as H1 by reflexivity.
  assert (finished (run [1; 0; 1; 0; 1; 0; 0] (load sample None))) as H2 by reflexivity.
  split; [exact H1|]. split; [exact H2|].
  exact (proj1 (schedules_agree sample None _ _ H1 H2)).
Defined.



Lemma stale_after_missing_anchor_witness :
  onhashchange (drain (load sample None)) = Some on_hashchange /\
  Some "nope" <> fragment (drain (load sample None)) /\
  query (anchor_selector (selector (Some "nope"))) (served_document sample) = None /\
  Some "foo" <> Some "nope" /\
  onhashchange (navigate sample (Some "foo")
                  (run [0] (navigate sample (Some "nope") (drain (load sample None))))) = None.
Proof.
  assert (onhashchange (drain (load sample None)) = Some on_hashchange) as Hh
    by reflexivity.
  assert (Some "nope" <> fragment (drain (load sample None))) as Hf1 by discriminate.
  assert (query (anchor_selector (selector (Some "nope"))) (served_document sample) = None)
    as Hq by reflexivity.
  assert (Some "foo" <> Some "nope") as Hf2 by discriminate.
  split; [exact Hh|]. split; [exact Hf1|]. split; [exact Hq|]. split; [exact Hf2|].
  exact (proj1 (proj2 (proj2 (proj2
    (stale_after_missing_anchor sample (Some "nope") "foo"
       (drain (load sample None)) [0] Hh Hf1 Hq Hf2))))).
Defined.

